(** * The100Rewrite: the script-to-audiobook batch pipeline ([tts_batch.py])

    A shallow embedding of [src/tts_batch.py] and the properties its
    specification states about it.

    Conventions of the embedding.
    - A Python [str] is a [string]; the model covers ASCII text, so the
      character classes below are the ASCII part of Python's Unicode
      classes ([str.isspace], [\s], [\w], [str.upper], [str.lower]).
    - A row delivered by [csv.reader] is a [list string] of cells.
    - The remote speech service and the [ffmpeg] process are external: their
      outcomes are read from an oracle, and every invocation is recorded in
      the log of the world, next to the files on disk.
    - Python exceptions are values of [exn]; a computation that may raise
      returns an [outcome]. *)

From Stdlib Require Import Ascii String List Arith Lia ZArith NArith Bool.
From Stdlib Require Import DecimalString DecimalNat.
From stdpp Require Import gmap strings.

Import ListNotations.
Local Open Scope bool_scope.

(** Appending to a text that starts with known characters simplifies. *)
Arguments String.append !s1 s2 : simpl nomatch.

(** ** Characters *)

Module Char.

Definition code (c : ascii) : nat := nat_of_ascii c.

Definition between (lo hi : nat) (c : ascii) : bool :=
  (lo <=? code c)%nat && (code c <=? hi)%nat.

(** [str.isspace] on ASCII: TAB, LF, VT, FF, CR, the four separators
    FS, GS, RS, US and the space. The pattern [\s] of [re] on a [str]
    uses the same class. *)
Definition isspace (c : ascii) : bool :=
  between 9 13 c || between 28 32 c.

Definition isupper (c : ascii) : bool := between 65 90 c.
Definition islower (c : ascii) : bool := between 97 122 c.
Definition isdigit (c : ascii) : bool := between 48 57 c.

(** [\w] of [re] on ASCII: letters, digits and the underscore. *)
Definition isword (c : ascii) : bool :=
  isupper c || islower c || isdigit c || Ascii.eqb c "_".

Definition upper (c : ascii) : ascii :=
  if islower c then ascii_of_nat (code c - 32) else c.

Definition lower (c : ascii) : ascii :=
  if isupper c then ascii_of_nat (code c + 32) else c.

(** The double-quote character, code 34. *)
Definition dquote : ascii := ascii_of_nat 34.

Definition isquote (c : ascii) : bool := Ascii.eqb c dquote.

End Char.

(** ** Strings: the [str] methods the pipeline calls *)

Module Str.

Fixpoint map (f : ascii -> ascii) (s : string) : string :=
  match s with
  | EmptyString => EmptyString
  | String c s' => String (f c) (map f s')
  end.

(** [s.upper()] and [s.lower()]. *)
Definition upper : string -> string := map Char.upper.
Definition lower : string -> string := map Char.lower.

(** [s.lstrip(chars)]: drop the longest prefix of characters in the class. *)
Fixpoint lstrip_by (p : ascii -> bool) (s : string) : string :=
  match s with
  | EmptyString => EmptyString
  | String c s' => if p c then lstrip_by p s' else s
  end.

(** [s.rstrip(chars)]: drop the longest suffix of characters in the class. *)
Fixpoint rstrip_by (p : ascii -> bool) (s : string) : string :=
  match s with
  | EmptyString => EmptyString
  | String c s' =>
      match rstrip_by p s' with
      | EmptyString => if p c then EmptyString else String c EmptyString
      | r => String c r
      end
  end.

Definition strip_by (p : ascii -> bool) (s : string) : string :=
  rstrip_by p (lstrip_by p s).

(** [s.strip()], and [s.strip(q)] for [q] the one-character string holding
    the double quote. *)
Definition strip : string -> string := strip_by Char.isspace.
Definition strip_quotes : string -> string := strip_by Char.isquote.

(** [s.startswith(p)]. *)
Fixpoint startswith (p s : string) : bool :=
  match p, s with
  | EmptyString, _ => true
  | String a p', String b s' => Ascii.eqb a b && startswith p' s'
  | String _ _, EmptyString => false
  end.

Fixpoint drop (n : nat) (s : string) : string :=
  match n, s with
  | O, _ => s
  | S n', String _ s' => drop n' s'
  | S _, EmptyString => EmptyString
  end.

(** [s.endswith(p)]. *)
Definition endswith (p s : string) : bool :=
  (String.length p <=? String.length s)%nat
  && String.eqb (drop (String.length s - String.length p) s) p.

(** [s[:-1]]: everything but the last character. *)
Fixpoint drop_last (s : string) : string :=
  match s with
  | EmptyString => EmptyString
  | String c EmptyString => EmptyString
  | String c s' => String c (drop_last s')
  end.

(** [s[a:-1]] for a non-negative [a]. *)
Definition slice_to_last (a : nat) (s : string) : string :=
  drop_last (drop a s).

(** [not s]: the truth value of a string is its non-emptiness. *)
Definition is_empty (s : string) : bool :=
  match s with EmptyString => true | _ => false end.

(** [sep.join(parts)]. *)
Fixpoint join (sep : string) (parts : list string) : string :=
  match parts with
  | [] => EmptyString
  | [p] => p
  | p :: rest => p +:+ sep +:+ join sep rest
  end.

End Str.

(** ** Exceptions and results *)

Inductive exn : Type :=
| KeyError (key : string)
| ValueError
| RuntimeError (msg : string)
| CalledProcessError
| ServiceError.

(** ** CONFIG (lines 8-29) *)

Definition VOICE_MAP : gmap string string :=
  list_to_map
    [ ("NARRATOR", "alloy");
      ("BECCA", "nova");
      ("CHRIS", "verse");
      ("WU", "cedar");
      ("BACKGROUND", "marin");
      ("CADOGAN", "ash");
      ("A.L.I.E.", "nova");
      ("MARA", "shimmer");
      ("JONAH", "cedar") ].

Definition MODEL : string := "gpt-4o-mini-tts".
Definition OUT_DIR : string := "output_build".
Definition SAMPLE_EXT : string := "wav".
Definition LOUDNORM : bool := true.
Definition TARGET_LUFS : Z := (-16)%Z.

(** ** Voice resolution (line 166) *)

(** [d[k]]: subscripting raises [KeyError] on a missing key. *)
Definition dict_getitem (d : gmap string string) (k : string) : exn + string :=
  match d !! k with
  | Some v => inr v
  | None => inl (KeyError k)
  end.

(** [VOICE_MAP.get(speaker.upper(), VOICE_MAP["NARRATOR"])]: the default
    argument is evaluated before the call, on every resolution. *)
Definition resolve_voice (speaker : string) : exn + string :=
  match dict_getitem VOICE_MAP "NARRATOR" with
  | inl e => inl e
  | inr fallback => inr (default fallback (VOICE_MAP !! Str.upper speaker))
  end.

(** ** Regular expressions of the pipeline *)

Module Re.

Definition isword_opt (c : option ascii) : bool :=
  match c with Some a => Char.isword a | None => false end.

Definition head (s : string) : option ascii :=
  match s with String c _ => Some c | EmptyString => None end.

(** [re.sub(r"\s+", repl, text)], as a left-to-right scan: the first
    character of a run of whitespace emits the replacement, the rest of the
    run is consumed. [in_run] tells whether the previous character was
    part of a run. *)
Fixpoint sub_space_runs (repl : string) (in_run : bool) (s : string) : string :=
  match s with
  | EmptyString => EmptyString
  | String c s' =>
      if Char.isspace c
      then (if in_run then sub_space_runs repl true s'
            else repl +:+ sub_space_runs repl true s')
      else String c (sub_space_runs repl false s')
  end.

(** The patterns of the alias table are sequences of literal characters
    (an escaped dot is the literal dot) and word-boundary assertions. *)
Inductive atom : Type :=
| Boundary
| Lit (c : ascii).

Definition pattern : Type := list atom.

(** Anchored match of a pattern at the current position: [prev] is the
    character before the position, [s] the text from the position on. The
    result is the number of characters consumed. *)
Fixpoint match_at (p : pattern) (prev : option ascii) (s : string) : option nat :=
  match p with
  | [] => Some O
  | Boundary :: p' =>
      if xorb (isword_opt prev) (isword_opt (head s))
      then match_at p' prev s else None
  | Lit c :: p' =>
      match s with
      | String d s' =>
          if Ascii.eqb c d then option_map S (match_at p' (Some d) s') else None
      | EmptyString => None
      end
  end.

(** [re.sub(p, repl, text)] for such a pattern: leftmost matches, not
    overlapping, each replaced by [repl]. [skip] counts the characters of
    a match that are still to be consumed. *)
Fixpoint sub_go (p : pattern) (repl : string) (prev : option ascii)
         (skip : nat) (s : string) : string :=
  match s with
  | EmptyString =>
      match skip, match_at p prev EmptyString with
      | O, Some _ => repl
      | _, _ => EmptyString
      end
  | String c s' =>
      match skip with
      | S k => sub_go p repl (Some c) k s'
      | O =>
          match match_at p prev s with
          | Some (S k) => repl +:+ sub_go p repl (Some c) k s'
          | Some O => repl +:+ String c (sub_go p repl (Some c) O s')
          | None => String c (sub_go p repl (Some c) O s')
          end
      end
  end.

Definition sub (p : pattern) (repl : string) (text : string) : string :=
  sub_go p repl None O text.

End Re.

(** [PRONUNCIATION_ALIASES] (lines 27-29): one entry, the pattern
    [\bA\.L\.I\.E\.\b] with the replacement [Allie]. *)
Definition PRONUNCIATION_ALIASES : list (Re.pattern * string) :=
  [ ([Re.Boundary; Re.Lit "A"; Re.Lit "."; Re.Lit "L"; Re.Lit ".";
      Re.Lit "I"; Re.Lit "."; Re.Lit "E"; Re.Lit "."; Re.Boundary],
     "Allie") ].

(** ** normalize_text (lines 41-45) *)

Definition collapse_whitespace (text : string) : string :=
  Str.strip (Re.sub_space_runs " " false text).

Definition apply_aliases (table : list (Re.pattern * string)) (text : string) : string :=
  fold_left (fun t pr => Re.sub (fst pr) (snd pr) t) table text.

Definition normalize_text (text : string) : string :=
  apply_aliases PRONUNCIATION_ALIASES (collapse_whitespace text).

(** The specification's reading of the first step: the words of the text,
    that is its maximal runs of characters that are not whitespace, joined
    by single spaces. *)
Module WordsSpec.

(** The fields between whitespace characters, empty ones included. *)
Fixpoint fields (s : string) : list string :=
  match s with
  | EmptyString => [EmptyString]
  | String c s' =>
      if Char.isspace c then EmptyString :: fields s'
      else match fields s' with
           | f :: fs => String c f :: fs
           | [] => [String c EmptyString]
           end
  end.

Definition words (s : string) : list string :=
  List.filter (fun f => negb (Str.is_empty f)) (fields s).

Definition collapse_spec (s : string) : string := Str.join " " (words s).

End WordsSpec.

(** ** Python floats, as far as [float(str)] is concerned *)

Module PyFloat.

(** A float value: a finite binary64 number, written as the exact
    decimal [(-1)^neg * mant * 10^exp10] it is equal to (every binary64
    number has one), an infinity or a NaN. The zeros keep their sign. *)
Inductive t : Type :=
| Finite (neg : bool) (mant : N) (exp10 : Z)
| Infinity (neg : bool)
| NaN.

Definition digit_value (c : ascii) : N := N.of_nat (Char.code c - 48).

(** A maximal run of decimal digits: the accumulated value, the number of
    digits read and the rest of the text. *)
Fixpoint digits (acc : N) (count : nat) (s : string) : N * nat * string :=
  match s with
  | String c s' =>
      if Char.isdigit c
      then digits (10 * acc + digit_value c)%N (S count) s'
      else (acc, count, s)
  | EmptyString => (acc, count, s)
  end.

Definition sign (s : string) : bool * string :=
  match s with
  | String c s' =>
      if Ascii.eqb c "-" then (true, s')
      else if Ascii.eqb c "+" then (false, s')
      else (false, s)
  | EmptyString => (false, s)
  end.

(** The bounds of the parser: a numeral has at most [MAX_DIGITS] digits
    behind its leading zeros and at most as many behind the point, and an
    exponent of ten digits or more is read as [MAX_ABS_EXP]. *)
Definition MAX_DIGITS : N := 1000000000.
Definition MAX_ABS_EXP : N := 1100000000.

(** What follows the mantissa: nothing, or [e], an optional sign and at
    least one digit, up to the end of the text. *)
Definition exponent (s : string) : option Z :=
  match s with
  | EmptyString => Some 0%Z
  | String c s1 =>
      if Ascii.eqb c "e" || Ascii.eqb c "E" then
        let (neg, s2) := sign s1 in
        let '(v, count, rest) := digits 0 0 s2 in
        let a := Z.of_N (if (v <? 10 ^ 9)%N then v else MAX_ABS_EXP) in
        if (0 <? count)%nat && Str.is_empty rest
        then Some (if neg then (- a)%Z else a)
        else None
      else None
  end.

(** The number of zeros a text starts with. *)
Fixpoint count_zeros (s : string) : nat :=
  match s with
  | String c s' => if Ascii.eqb c "0" then S (count_zeros s') else O
  | EmptyString => O
  end.

(** Digits, an optional point and more digits, with at least one digit in
    all, then the exponent. The digits that count for the bound are those
    behind the leading zeros, the zeros that follow the point included when
    no other digit stands before the point. *)
Definition decimal (s : string) : option (N * Z) :=
  let '(int_part, n1, r1) := digits 0 0 s in
  let '(mant, n2, r2, zeros2) :=
    match r1 with
    | String c r => if Ascii.eqb c "." then (digits int_part 0 r, count_zeros r)
                    else (int_part, O, r1, O)
    | EmptyString => (int_part, O, r1, O)
    end in
  let k1 := (n1 - count_zeros s)%nat in
  let ndigits := if (k1 =? 0)%nat then (n2 - zeros2)%nat else (k1 + n2)%nat in
  if (n1 + n2 =? 0)%nat then None
  else if (N.of_nat ndigits <=? MAX_DIGITS)%N && (N.of_nat n2 <=? MAX_DIGITS)%N
       then option_map (fun e => (mant, (e - Z.of_nat n2)%Z)) (exponent r2)
       else None.

(** [inf], [infinity] and [nan], in any letter case. *)
Definition special (s : string) : option (bool -> t) :=
  let l := Str.lower s in
  if String.eqb l "inf" || String.eqb l "infinity" then Some Infinity
  else if String.eqb l "nan" then Some (fun _ => NaN)
  else None.

Definition isdigit_opt (c : option ascii) : bool :=
  match c with Some a => Char.isdigit a | None => false end.

Definition is_underscore_opt (c : option ascii) : bool :=
  match c with Some a => Ascii.eqb a "_" | None => false end.

(** An underscore is accepted only between two digits. *)
Fixpoint underscores_ok (prev : option ascii) (s : string) : bool :=
  match s with
  | EmptyString => negb (is_underscore_opt prev)
  | String c s' =>
      (if Ascii.eqb c "_" then isdigit_opt prev
       else if is_underscore_opt prev then Char.isdigit c else true)
      && underscores_ok (Some c) s'
  end.

Fixpoint remove_underscores (s : string) : string :=
  match s with
  | EmptyString => EmptyString
  | String c s' =>
      if Ascii.eqb c "_" then remove_underscores s'
      else String c (remove_underscores s')
  end.

(** The whitespace [float] skips at both ends of an ASCII text: TAB, LF,
    VT, FF, CR and the space. The separators FS, GS, RS and US, which
    [str.strip] removes, are not skipped. *)
Definition isspace (c : ascii) : bool :=
  Char.between 9 13 c || Ascii.eqb c " ".

(** *** Rounding to binary64

    A finite binary64 number is [m * 2^e] with [m < 2^53] and
    [-1074 <= e <= 971]. The conversion rounds the decimal to the nearest
    such number, ties to the even [m]; what reaches [2^1024] becomes an
    infinity, what is below half of [2^-1074] becomes a zero, and the sign
    is kept in both cases. *)

(** [num / den >= 2^d], for positive [num] and [den]. *)
Definition ratio_ge_pow2 (num den d : Z) : bool :=
  (if 0 <=? d then den * 2 ^ d <=? num else den <=? num * 2 ^ (- d))%Z.

(** The integer nearest to [num / den], ties to even. *)
Definition div_nearest_even (num den : Z) : Z :=
  let q := (num / den)%Z in
  let r := (num mod den)%Z in
  match (2 * r ?= den)%Z with
  | Lt => q
  | Gt => (q + 1)%Z
  | Eq => if Z.even q then q else (q + 1)%Z
  end.

(** The binary64 number nearest to [num / den], as its integer mantissa
    and binary exponent of the last place. *)
Definition nearest_binary64 (num den : Z) : Z * Z :=
  let d := (Z.log2 num - Z.log2 den)%Z in
  let k := if ratio_ge_pow2 num den d then d else (d - 1)%Z in
  let e := Z.max (k - 52) (-1074) in
  let m := if (0 <=? e)%Z then div_nearest_even num (den * 2 ^ e)
           else div_nearest_even (num * 2 ^ (- e)) den in
  (m, e).

(** [p * 2^e] with the factors of two moved out of [p]. *)
Fixpoint odd_part (p : positive) (e : Z) : positive * Z :=
  match p with
  | xO p' => odd_part p' (e + 1)%Z
  | _ => (p, e)
  end.

(** [m * 10^e] with up to [fuel] trailing zeros of [m] moved to [e]. *)
Fixpoint drop_zeros (fuel : nat) (m : N) (e : Z) : N * Z :=
  match fuel with
  | O => (m, e)
  | S fuel' =>
      if (m mod 10 =? 0)%N then drop_zeros fuel' (m / 10)%N (e + 1)%Z
      else (m, e)
  end.

(** The exact decimal of [m * 2^e], with a mantissa that does not end in
    a zero. *)
Definition decimal_of_binary (m : positive) (e : Z) : N * Z :=
  let (o, e') := odd_part m e in
  match e' with
  | Zneg k => (Npos o * 5 ^ Npos k, e')%N
  | _ => let v := (Npos o * 2 ^ Z.to_N e')%N in
         drop_zeros (N.to_nat (N.size v)) v 0
  end.

(** The float for the decimal [(-1)^neg * mant * 10^exp10]. *)
Definition round (neg : bool) (mant : N) (exp10 : Z) : t :=
  match mant with
  | N0 => Finite neg 0 0
  | Npos p =>
      let (m, e) :=
        if (0 <=? exp10)%Z then nearest_binary64 (Zpos p * 10 ^ exp10) 1
        else nearest_binary64 (Zpos p) (10 ^ (- exp10)) in
      match m with
      | Zpos q =>
          if (1024 <=? Z.log2 m + e)%Z then Infinity neg
          else let (dm, de) := decimal_of_binary q e in Finite neg dm de
      | _ => Finite neg 0 0
      end
  end.

(** [float(s)] for an ASCII [str]; [None] stands for [ValueError]. The
    text is accepted when its underscores stand between digits and, with
    the underscores and the outer whitespace removed, it is a sign followed
    by [inf], [infinity], [nan] or a decimal numeral; the numeral is
    rounded to binary64. *)
Definition of_string (s : string) : option t :=
  if underscores_ok None s then
    let (neg, r) := sign (Str.strip_by isspace (remove_underscores s)) in
    match special r with
    | Some f => Some (f neg)
    | None =>
        option_map (fun me => round neg (fst me) (snd me)) (decimal r)
    end
  else None.

(** A float that is a real number greater than or equal to zero: a finite
    value that is positive or a zero of either sign ([-0.0 >= 0] holds). *)
Definition nonneg_real (x : t) : bool :=
  match x with
  | Finite neg mant _ => negb neg || (mant =? 0)%N
  | Infinity _ => false
  | NaN => false
  end.

(** The literals of the source. *)
Definition lit_0_25 : t := Finite false 25 (-2).
Definition lit_0_5 : t := Finite false 5 (-1).

End PyFloat.

Definition DEFAULT_INTERLINE_PAUSE : PyFloat.t := PyFloat.lit_0_25.

(** ** Segment file names *)

(** [str(n)] for a non-negative integer. *)
Definition str_of_nat (n : nat) : string :=
  NilEmpty.string_of_uint (Nat.to_uint n).

Fixpoint zeros (k : nat) : string :=
  match k with
  | O => EmptyString
  | S k' => String "0" (zeros k')
  end.

(** The format [{idx:05d}]: decimal, padded with zeros on the left up to
    five characters. *)
Definition fmt_05d (idx : nat) : string :=
  let s := str_of_nat idx in
  zeros (5 - String.length s) +:+ s.

(** [OUT_DIR / name]. *)
Definition out_path (name : string) : string := OUT_DIR +:+ "/" +:+ name.

(** [OUT_DIR / f"{idx:05d}_{role}.{ext}"]. *)
Definition segment_path (idx : nat) (role ext : string) : string :=
  out_path (fmt_05d idx +:+ "_" +:+ role +:+ "." +:+ ext).

(** ** The world: files, external calls and their outcomes *)

Inductive encoding : Type :=
| Mp3Quality3      (* -q:a 3 *)
| Pcm24kMono.      (* -ar 24000 -ac 1 -c:a pcm_s16le *)

(** The output options of the concatenation, chosen by the extension of the
    final file. *)
Inductive final_codec : Type :=
| FinalPcm24kMono      (* -ar 24000 -ac 1 -c:a pcm_s16le *)
| FinalMp3_128k        (* -ar 24000 -ac 1 -b:a 128k *)
| FinalUnspecified.

(** One invocation of an external collaborator. The concatenation reads the
    play-list [list_file]; [loudnorm] holds the target loudness when the
    filter is requested. *)
Inductive call : Type :=
| SpeechCreate (model voice input dest : string)
| FfmpegTranscode (src dst : string)
| FfmpegSilence (seconds : PyFloat.t) (enc : encoding) (out : string)
| FfmpegConcat (list_file : string) (loudnorm : option Z) (codec : final_codec)
               (out : string).

Record world : Type := World {
  ffmpeg_on_path : bool;             (* shutil.which("ffmpeg") is not None *)
  cwd : string;
  files : gmap string string;        (* path to content *)
  log : list call                    (* external calls, oldest first *)
}.

(** What the collaborators answer: the audio the speech service streams
    back, or [None] when the request fails; the bytes [ffmpeg] writes to its
    output, or [None] when it exits with a non-zero status. An answer may
    depend on everything that happened before. *)
Record oracle : Type := Oracle {
  speech_answer : world -> call -> option string;
  ffmpeg_answer : world -> call -> option string
}.

Inductive outcome (A : Type) : Type :=
| Return (a : A) (w : world)
| Raise (e : exn) (w : world).

Arguments Return {A} a w.
Arguments Raise {A} e w.

Definition M (A : Type) : Type := world -> outcome A.

Definition ret {A : Type} (a : A) : M A := fun w => Return a w.

Definition raise {A : Type} (e : exn) : M A := fun w => Raise e w.

Definition bind {A B : Type} (m : M A) (k : A -> M B) : M B :=
  fun w =>
    match m w with
    | Return a w' => k a w'
    | Raise e w' => Raise e w'
    end.

(** [try: m  except Exception: h]. *)
Definition try_except {A : Type} (m : M A) (h : exn -> M A) : M A :=
  fun w =>
    match m w with
    | Return a w' => Return a w'
    | Raise e w' => h e w'
    end.

Definition lift {A : Type} (r : exn + A) : M A :=
  match r with
  | inl e => raise e
  | inr a => ret a
  end.

Declare Scope py_scope.
Delimit Scope py_scope with py.
Notation "'perform' x '<-' m 'in' k" := (bind m (fun x => k))
  (at level 10, x name, m at level 100, k at level 200) : py_scope.
Notation "'exec' m 'in' k" := (bind m (fun _ => k))
  (at level 10, m at level 100, k at level 200) : py_scope.
Local Open Scope py_scope.

(** The three ways the pipeline changes the world. *)
Definition add_call (c : call) (w : world) : world :=
  World (ffmpeg_on_path w) (cwd w) (files w) (log w ++ [c]).

Definition put_file (path data : string) (w : world) : world :=
  World (ffmpeg_on_path w) (cwd w) (<[path := data]> (files w)) (log w).

Definition del_file (path : string) (w : world) : world :=
  World (ffmpeg_on_path w) (cwd w) (delete path (files w)) (log w).

Definition record_call (c : call) : M unit :=
  fun w => Return tt (add_call c w).

(** [path.write_bytes(data)], and the file an external tool leaves behind.
    The output directory exists (line 34), so the write succeeds. *)
Definition write_file (path data : string) : M unit :=
  fun w => Return tt (put_file path data w).

(** [path.unlink(missing_ok=True)]. *)
Definition unlink (path : string) : M unit :=
  fun w => Return tt (del_file path w).

Definition world_of {A : Type} (o : outcome A) : world :=
  match o with
  | Return _ w => w
  | Raise _ w => w
  end.

(** Lines 153-156: the duration of a pause cell, [float(cell[7:-1])], and
    0.5 when the conversion raises. *)
Definition pause_seconds (cell : string) : PyFloat.t :=
  match PyFloat.of_string (Str.slice_to_last 7 cell) with
  | Some v => v
  | None => PyFloat.lit_0_5
  end.

(** ** UTIL (lines 37-128) *)

(** The message of the error raised when the media tool is not installed. *)
Definition check_ffmpeg_message : string :=
  "ffmpeg not found. Install with:  brew install ffmpeg".

Section Pipeline.

Variable ext : oracle.

(** [subprocess.run(["ffmpeg", ...], check=True)] writing to [out]. *)
Definition run_ffmpeg (c : call) (out : string) : M unit :=
  fun w =>
    match ffmpeg_answer ext w c with
    | Some data => (exec record_call c in write_file out data) w
    | None => (exec record_call c in raise CalledProcessError) w
    end.

(** The request to the speech service, streamed to [dest]. *)
Definition speech_to_file (c : call) (dest : string) : M unit :=
  fun w =>
    match speech_answer ext w c with
    | Some data => (exec record_call c in write_file dest data) w
    | None => (exec record_call c in raise ServiceError) w
    end.

Definition _check_ffmpeg : M unit :=
  fun w =>
    if ffmpeg_on_path w then Return tt w
    else Raise (RuntimeError check_ffmpeg_message) w.

Definition _transcode_to_wav (src_mp3 dst_wav : string) : M unit :=
  exec _check_ffmpeg in
  exec run_ffmpeg (FfmpegTranscode src_mp3 dst_wav) dst_wav in
  try_except (unlink src_mp3) (fun _ => ret tt).

Definition synth_to_file (text voice : string) (idx : nat) : M string :=
  let text := normalize_text text in
  let tmp_mp3 := segment_path idx voice "mp3" in
  exec speech_to_file (SpeechCreate MODEL voice text tmp_mp3) tmp_mp3 in
  if String.eqb (Str.lower SAMPLE_EXT) "mp3" then ret tmp_mp3
  else
    let out_wav := segment_path idx voice "wav" in
    exec _transcode_to_wav tmp_mp3 out_wav in
    ret out_wav.

Definition make_silence (seconds : PyFloat.t) (idx : nat) : M string :=
  exec _check_ffmpeg in
  let out := segment_path idx "silence" (Str.lower SAMPLE_EXT) in
  exec try_except
    (if String.eqb (Str.lower SAMPLE_EXT) "mp3"
     then run_ffmpeg (FfmpegSilence seconds Mp3Quality3 out) out
     else run_ffmpeg (FfmpegSilence seconds Pcm24kMono out) out)
    (fun _ => write_file out EmptyString) in
  ret out.

Definition newline : string := String (ascii_of_nat 10) EmptyString.

(** One line of the play-list per part, with the absolute path. *)
Definition manifest (dir : string) (parts : list string) : string :=
  String.concat EmptyString
    (List.map (fun p => "file '" +:+ dir +:+ "/" +:+ p +:+ "'" +:+ newline) parts).

Definition concat_files (parts : list string) (out : string) : M unit :=
  exec _check_ffmpeg in
  let list_file := out_path "concat.txt" in
  exec (fun w => write_file list_file (manifest (cwd w) parts) w) in
  let loudnorm := if LOUDNORM then Some TARGET_LUFS else None in
  let out_lower := Str.lower out in
  let codec :=
    if Str.endswith ".wav" out_lower then FinalPcm24kMono
    else if Str.endswith ".mp3" out_lower then FinalMp3_128k
    else FinalUnspecified in
  run_ffmpeg (FfmpegConcat list_file loudnorm codec out) out.

(** ** MAIN (lines 131-178) *)

(** The body of the loop over the rows: [st] holds [parts] and [idx].
    The progress line printed for a dialogue row is not modelled. *)
Definition process_row (row : list string) (st : list string * nat)
  : M (list string * nat) :=
  let (parts, idx) := st in
  match row with
  | [] => ret st
  | [c] =>
      if Str.is_empty (Str.strip c) then ret st
      else
        let cell := Str.strip c in
        if Str.startswith "speaker" (Str.lower cell) then ret st
        else if Str.startswith "[PAUSE=" cell && Str.endswith "]" cell then
          let seconds := pause_seconds cell in
          perform p <- make_silence seconds idx in
          ret (parts ++ [p], S idx)
        else ret st
  | c0 :: c1 :: _ =>
      let speaker := Str.strip c0 in
      let text := Str.strip_quotes (Str.strip c1) in
      if Str.is_empty speaker && Str.is_empty text then ret st
      else
        perform voice <- lift (resolve_voice speaker) in
        perform audio_path <- synth_to_file text voice idx in
        perform p <- make_silence DEFAULT_INTERLINE_PAUSE (S idx) in
        ret ((parts ++ [audio_path]) ++ [p], S (S idx))
  end.

Fixpoint main_loop (rows : list (list string)) (st : list string * nat)
  : M (list string * nat) :=
  match rows with
  | [] => ret st
  | row :: rest => perform st' <- process_row row st in main_loop rest st'
  end.

(** [main]: the rows of the script, then the assembly of the parts. *)
Definition main (rows : list (list string)) (final_out : string) : M unit :=
  perform st <- main_loop rows ([], O) in
  concat_files (fst st) final_out.

End Pipeline.

(** ** Auxiliary notions for the normalizer *)

(** Text in which whitespace occurs only as single spaces; [after_space]
    tells whether the character before the text is a space. *)
Fixpoint single_spaced (after_space : bool) (s : string) : bool :=
  match s with
  | EmptyString => true
  | String c s' =>
      if Char.isspace c
      then Ascii.eqb c " " && negb after_space && single_spaced true s'
      else single_spaced false s'
  end.

(** The same, and the text does not end with a space. *)
Fixpoint tidy_go (after_space : bool) (s : string) : bool :=
  match s with
  | EmptyString => negb after_space
  | String c s' =>
      if Char.isspace c
      then Ascii.eqb c " " && negb after_space && tidy_go true s'
      else tidy_go false s'
  end.

(** Tidy text: words separated by single spaces, no space at either end. *)
Definition tidy (s : string) : bool :=
  Str.is_empty s || tidy_go true s.

(** The pattern that spells a literal between two word boundaries. *)
Fixpoint lits (l : string) : Re.pattern :=
  match l with
  | EmptyString => []
  | String c l' => Re.Lit c :: lits l'
  end.

Fixpoint last_opt (l : string) (prev : option ascii) : option ascii :=
  match l with
  | EmptyString => prev
  | String c l' => last_opt l' (Some c)
  end.

(** The substitution of the one configured alias, started in the middle of
    a text whose previous character is [prev]. *)
Definition allie (prev : option ascii) (s : string) : string :=
  Re.sub_go (Re.Boundary :: lits "A.L.I.E." ++ [Re.Boundary]) "Allie" prev O s.

(** The alias matches at the head of [s]. *)
Definition alias_here (prev : option ascii) (s : string) : bool :=
  Str.startswith "A.L.I.E." s
  && negb (Re.isword_opt prev)
  && Re.isword_opt (Re.head (Str.drop 8 s)).

(** The specification's reading of the second step, for the one alias of
    the table: scanning from the left, every occurrence of the abbreviation
    that stands between two word boundaries is replaced by its phonetic
    spelling and the scan resumes behind the occurrence; every other
    character is kept as it is. The abbreviation starts with a letter and
    ends with a dot, so the boundaries ask for no word character before it
    and for a word character after it. *)
Module AliasSpec.

Fixpoint respell_go (fuel : nat) (prev : option ascii) (s : string) : string :=
  match fuel, s with
  | S fuel', String c s' =>
      if alias_here prev s
      then "Allie" +:+ respell_go fuel' (Some "."%char) (Str.drop 8 s)
      else String c (respell_go fuel' (Some c) s')
  | _, _ => s
  end.

Definition respell (s : string) : string :=
  respell_go (String.length s) None s.

End AliasSpec.

(** A literal without the capital letter A. *)
Fixpoint no_capital_a (l : string) : bool :=
  match l with
  | EmptyString => true
  | String c l' => negb (Ascii.eqb "A" c) && no_capital_a l'
  end.

(** The words of a list, each preceded by a space. *)
Fixpoint spaced (ws : list string) : string :=
  match ws with
  | [] => EmptyString
  | w :: ws' => String " " (w +:+ spaced ws')
  end.

(** ** Auxiliary notions for the statements about the pipeline *)

Definition value_of {A : Type} (o : outcome A) : option A :=
  match o with
  | Return a _ => Some a
  | Raise _ _ => None
  end.

(** The command that generates the silence of segment [idx]. *)
Definition silence_call (seconds : PyFloat.t) (idx : nat) : call :=
  FfmpegSilence seconds Pcm24kMono (segment_path idx "silence" "wav").

(** The world after the silence of segment [idx] was generated, or replaced
    by an empty file because the command failed. *)
Definition after_silence (ext : oracle) (seconds : PyFloat.t) (idx : nat)
           (w : world) : world :=
  put_file (segment_path idx "silence" "wav")
           (default EmptyString (ffmpeg_answer ext w (silence_call seconds idx)))
           (add_call (silence_call seconds idx) w).

(** The request that synthesizes segment [idx], and the command that
    transcodes its answer. *)
Definition speech_call (text voice : string) (idx : nat) : call :=
  SpeechCreate MODEL voice (normalize_text text) (segment_path idx voice "mp3").

Definition transcode_call (voice : string) (idx : nat) : call :=
  FfmpegTranscode (segment_path idx voice "mp3") (segment_path idx voice "wav").

(** Collaborators that answer every request of the given kind. *)
Definition speech_works (ext : oracle) : Prop :=
  forall w c, speech_answer ext w c <> None.

Definition transcode_works (ext : oracle) : Prop :=
  forall w src dst, ffmpeg_answer ext w (FfmpegTranscode src dst) <> None.

(** The file names of consecutive segments, from index [idx] on, given the
    role (a voice, or silence) of each. *)
Fixpoint segment_paths (idx : nat) (roles : list string) : list string :=
  match roles with
  | [] => []
  | role :: rest => segment_path idx role "wav" :: segment_paths (S idx) rest
  end.

Fixpoint all_digits (s : string) : bool :=
  match s with
  | EmptyString => true
  | String c s' => Char.isdigit c && all_digits s'
  end.

(** A cell that holds two double quotes and nothing else. *)
Definition two_quotes : string :=
  String Char.dquote (String Char.dquote EmptyString).

(** A pause cell whose number stands between the separators US and FS:
    whitespace for [str.strip], not for [float]. *)
Definition separated_pause_cell : string :=
  "[PAUSE=" +:+ String (ascii_of_nat 31) ("2" +:+ String (ascii_of_nat 28) "]").

(** A cell whose text stands between double quotes and spaces. *)
Definition quoted_cell : string :=
  " " +:+ String Char.dquote ("Hi, you" +:+ String Char.dquote " ").

(** The number a string of decimal digits spells, leading zeros allowed. *)
Definition index_value (s : string) : option nat :=
  option_map Nat.of_uint (NilEmpty.uint_of_string s).

(** ** Auxiliary notions for the properties of a whole run *)

(** The rows the loop passes over without any effect. *)
Definition skipped (row : list string) : bool :=
  match row with
  | [] => true
  | [c] =>
      Str.is_empty (Str.strip c)
      || Str.startswith "speaker" (Str.lower (Str.strip c))
      || negb (Str.startswith "[PAUSE=" (Str.strip c)
               && Str.endswith "]" (Str.strip c))
  | c0 :: c1 :: _ =>
      Str.is_empty (Str.strip c0)
      && Str.is_empty (Str.strip_quotes (Str.strip c1))
  end.

(** The calls the loop may make: all but the concatenation. *)
Definition loop_call (c : call) : bool :=
  match c with
  | FfmpegConcat _ _ _ _ => false
  | _ => true
  end.

(** The name of a finished segment. *)
Definition wav_segment (p : string) : Prop :=
  exists idx role, p = segment_path idx role "wav".

(** The play-list of the concatenation, and the command that reads it. *)
Definition list_file_path : string := out_path "concat.txt".

Definition final_codec_of (out : string) : final_codec :=
  if Str.endswith ".wav" (Str.lower out) then FinalPcm24kMono
  else if Str.endswith ".mp3" (Str.lower out) then FinalMp3_128k
  else FinalUnspecified.

Definition concat_call (out : string) : call :=
  FfmpegConcat list_file_path (Some TARGET_LUFS) (final_codec_of out) out.

(** What the loop over the rows keeps of the world it started in: the
    installation of the media tool, the working directory, the play-list,
    the finished segments on disk, and a log that only grows, by calls
    other than the concatenation. *)
Record loop_keeps (w w' : world) : Prop := LoopKeeps {
  keeps_tool : ffmpeg_on_path w' = ffmpeg_on_path w;
  keeps_cwd : cwd w' = cwd w;
  keeps_list_file : files w' !! list_file_path = files w !! list_file_path;
  keeps_segments :
    forall p, wav_segment p -> is_Some (files w !! p) -> is_Some (files w' !! p);
  keeps_calls :
    exists calls, log w' = log w ++ calls /\ forallb loop_call calls = true
}.

(** Text made of whitespace only. *)
Fixpoint all_space (s : string) : bool :=
  match s with
  | EmptyString => true
  | String c s' => Char.isspace c && all_space s'
  end.

(** Every character of a text is in a class. *)
Fixpoint all_in (p : ascii -> bool) (s : string) : bool :=
  match s with
  | EmptyString => true
  | String c s' => p c && all_in p s'
  end.

(** [core] is what is left of [s] once the characters of the class [p] are
    taken off both ends: [s] is [core] between two runs of such characters,
    and [core] neither starts nor ends with one. *)
Definition trimmed (p : ascii -> bool) (s core : string) : Prop :=
  (exists l r, s = l +:+ core +:+ r /\ all_in p l = true /\ all_in p r = true)
  /\ (forall c, Re.head core = Some c -> p c = false)
  /\ (forall c, last_opt core None = Some c -> p c = false).

(** What a stretch of the loop that starts at the index [idx] leaves alone
    on disk: it changes no file but the segment files numbered [idx] or
    above, and it removes no file but the .mp3 files among these. *)
Record loop_frame (idx : nat) (w w' : world) : Prop := LoopFrame {
  frame_others :
    forall p, (forall j role ext, idx <= j -> p <> segment_path j role ext) ->
              files w' !! p = files w !! p;
  frame_removed :
    forall p, is_Some (files w !! p) -> files w' !! p = None ->
              exists j voice, idx <= j /\ p = segment_path j voice "mp3"
}.

(** ** Concrete collaborators, for closed examples *)

(** Every external call succeeds. *)
Definition ok_oracle : oracle :=
  Oracle (fun _ _ => Some "mp3-bytes") (fun _ _ => Some "wav-bytes").

(** The speech service works, [ffmpeg] always exits with an error. *)
Definition failing_ffmpeg_oracle : oracle :=
  Oracle (fun _ _ => Some "mp3-bytes") (fun _ _ => None).

(** The media tool works, the speech service refuses every request. *)
Definition failing_speech_oracle : oracle :=
  Oracle (fun _ _ => None) (fun _ _ => Some "wav-bytes").

(** The speech service and the transcoder work, every silence command
    fails. *)
Definition failing_silence_oracle : oracle :=
  Oracle (fun _ _ => Some "mp3-bytes")
         (fun _ c => match c with
                     | FfmpegSilence _ _ _ => None
                     | _ => Some "wav-bytes"
                     end).

(** A fresh run with [ffmpeg] installed, and one without it. *)
Definition fresh_world : world := World true "/work" ∅ [].
Definition no_ffmpeg_world : world := World false "/work" ∅ [].

(** * The audition script ([main.py])

    The second file of the repository is a script without functions: it
    asks the speech service for one sample per voice and joins the samples.
    It shares nothing with the pipeline but the conventions, so it has its
    own calls, world and errors. The list of voices is a parameter of the
    loop; the script runs it on [VOICES]. *)

Module Demo.

Definition MODEL : string := "gpt-4o-mini-tts".

Definition VOICES : list string :=
  [ "alloy"; "echo"; "fable"; "onyx"; "nova";
    "shimmer"; "coral"; "verse"; "ballad"; "ash";
    "sage"; "marin"; "cedar" ].

Definition TEXT : string :=
  "Hello, this is a short audition line for our audiobook.".

Definition OUT_DIR : string := "output".

(** [s.capitalize()]: the first character in upper case, the rest in lower
    case. *)
Definition capitalize (s : string) : string :=
  match s with
  | EmptyString => EmptyString
  | String c s' => String (Char.upper c) (Str.lower s')
  end.

(** The format [{idx:02d}]. *)
Definition fmt_02d (idx : nat) : string :=
  let s := str_of_nat idx in
  zeros (2 - String.length s) +:+ s.

(** [OUT_DIR / f"{idx:02d}_{voice}.wav"]. *)
Definition sample_path (idx : nat) (voice : string) : string :=
  OUT_DIR +:+ "/" +:+ fmt_02d idx +:+ "_" +:+ voice +:+ ".wav".

Definition final_path : string := OUT_DIR +:+ "/" +:+ "all_voices_demo.wav".
Definition concat_file : string := OUT_DIR +:+ "/" +:+ "concat.txt".

(** The text spoken for a voice. *)
Definition audition_line (voice : string) : string :=
  capitalize voice +:+ " voice speaking. " +:+ TEXT.

Inductive demo_call : Type :=
| DemoSpeech (model voice input dest : string)
| DemoConcatCopy (list_file out : string).   (* -f concat -safe 0 -i .. -c copy *)

Inductive demo_exn : Type :=
| DemoServiceError
| DemoFileNotFoundError.      (* subprocess.run cannot find the program *)

Record demo_world : Type := DemoWorld {
  demo_ffmpeg_on_path : bool;
  demo_cwd : string;
  demo_files : gmap string string;
  demo_log : list demo_call
}.

(** The answers of the speech service, and of [ffmpeg]: [None] is a request
    that fails, and an exit with a non-zero status. *)
Record demo_oracle : Type := DemoOracle {
  demo_speech_answer : demo_world -> demo_call -> option string;
  demo_ffmpeg_answer : demo_world -> demo_call -> option string
}.

Inductive demo_outcome (A : Type) : Type :=
| DemoReturn (a : A) (w : demo_world)
| DemoRaise (e : demo_exn) (w : demo_world).

Arguments DemoReturn {A} a w.
Arguments DemoRaise {A} e w.

Definition demo_world_of {A : Type} (o : demo_outcome A) : demo_world :=
  match o with
  | DemoReturn _ w => w
  | DemoRaise _ w => w
  end.

Definition demo_add_call (c : demo_call) (w : demo_world) : demo_world :=
  DemoWorld (demo_ffmpeg_on_path w) (demo_cwd w) (demo_files w) (demo_log w ++ [c]).

Definition demo_put_file (path data : string) (w : demo_world) : demo_world :=
  DemoWorld (demo_ffmpeg_on_path w) (demo_cwd w)
            (<[path := data]> (demo_files w)) (demo_log w).

Section Script.

Variable ext : demo_oracle.

(** One turn of the loop of lines 24-33. *)
Definition sample (idx : nat) (voice : string) (w : demo_world)
  : demo_outcome string :=
  let out_path := sample_path idx voice in
  let c := DemoSpeech MODEL voice (audition_line voice) out_path in
  match demo_speech_answer ext w c with
  | Some data => DemoReturn out_path (demo_put_file out_path data (demo_add_call c w))
  | None => DemoRaise DemoServiceError (demo_add_call c w)
  end.

(** The loop over [enumerate(voices)], from index [idx] on. *)
Fixpoint samples (voices : list string) (idx : nat) (parts : list string)
         (w : demo_world) : demo_outcome (list string) :=
  match voices with
  | [] => DemoReturn parts w
  | voice :: rest =>
      match sample idx voice w with
      | DemoReturn out_path w' => samples rest (S idx) (parts ++ [out_path]) w'
      | DemoRaise e w' => DemoRaise e w'
      end
  end.

(** Lines 36-45: the play-list, then [subprocess.run] without [check]: the
    exit status of the program is not looked at, but a program that cannot
    be found raises. *)
Definition stitch (parts : list string) (w : demo_world) : demo_outcome unit :=
  let w1 := demo_put_file concat_file (manifest (demo_cwd w) parts) w in
  let c := DemoConcatCopy concat_file final_path in
  if demo_ffmpeg_on_path w1 then
    match demo_ffmpeg_answer ext w1 c with
    | Some data => DemoReturn tt (demo_put_file final_path data (demo_add_call c w1))
    | None => DemoReturn tt (demo_add_call c w1)
    end
  else DemoRaise DemoFileNotFoundError w1.

Definition run (voices : list string) (w : demo_world) : demo_outcome unit :=
  match samples voices 0 [] w with
  | DemoReturn parts w' => stitch parts w'
  | DemoRaise e w' => DemoRaise e w'
  end.

(** The script as it stands. *)
Definition script (w : demo_world) : demo_outcome unit := run VOICES w.

End Script.

(** The names and the requests of the samples of [voices], from [idx] on. *)
Fixpoint sample_paths (idx : nat) (voices : list string) : list string :=
  match voices with
  | [] => []
  | voice :: rest => sample_path idx voice :: sample_paths (S idx) rest
  end.

Fixpoint sample_requests (idx : nat) (voices : list string) : list demo_call :=
  match voices with
  | [] => []
  | voice :: rest =>
      DemoSpeech MODEL voice (audition_line voice) (sample_path idx voice)
      :: sample_requests (S idx) rest
  end.

Definition is_request (c : demo_call) : bool :=
  match c with
  | DemoSpeech _ _ _ _ => true
  | DemoConcatCopy _ _ => false
  end.

Definition demo_ok_oracle : demo_oracle :=
  DemoOracle (fun _ _ => Some "audio") (fun _ _ => Some "joined").

(** The service answers, the media tool exits with an error. *)
Definition demo_bad_ffmpeg_oracle : demo_oracle :=
  DemoOracle (fun _ _ => Some "audio") (fun _ _ => None).

(** The service refuses the sample of the voice onyx. *)
Definition demo_no_onyx_oracle : demo_oracle :=
  DemoOracle (fun _ c => match c with
                         | DemoSpeech _ voice _ _ =>
                             if String.eqb voice "onyx" then None else Some "audio"
                         | _ => None
                         end)
             (fun _ _ => Some "joined").

Definition demo_fresh_world : demo_world := DemoWorld true "/work" ∅ [].

End Demo.

(** * Properties *)

(** ** Characters and strings *)

Lemma upper_lower_char (c : ascii) : Char.upper (Char.lower c) = Char.upper c.
Proof. destruct c as [[] [] [] [] [] [] [] []]; vm_compute; reflexivity. Qed.

Lemma upper_upper_char (c : ascii) : Char.upper (Char.upper c) = Char.upper c.
Proof. destruct c as [[] [] [] [] [] [] [] []]; vm_compute; reflexivity. Qed.

Lemma upper_lower (s : string) : Str.upper (Str.lower s) = Str.upper s.
Proof.
  induction s as [|c s IH]; [reflexivity|].
  cbn. f_equal; [apply upper_lower_char | exact IH].
Qed.

Lemma upper_upper (s : string) : Str.upper (Str.upper s) = Str.upper s.
Proof.
  induction s as [|c s IH]; [reflexivity|].
  cbn. f_equal; [apply upper_upper_char | exact IH].
Qed.

(** ** Voice resolution *)

Lemma narrator_configured : VOICE_MAP !! "NARRATOR" = Some "alloy".
Proof. vm_compute. reflexivity. Qed.

Lemma resolve_voice_eq (speaker : string) :
  resolve_voice speaker = inr (default "alloy" (VOICE_MAP !! Str.upper speaker)).
Proof.
  unfold resolve_voice, dict_getitem. rewrite narrator_configured. reflexivity.
Qed.

(** C3. Voice resolution is a total function of the speaker label: it never
    raises and yields exactly one voice. A label whose upper-cased form is a
    key of the voice table gets the configured voice, any other label gets
    the voice of NARRATOR, and labels that differ only in letter case get
    the same voice. *)
Theorem resolve_voice_total (speaker : string) :
  (exists! voice, resolve_voice speaker = inr voice) /\
  (forall voice, VOICE_MAP !! Str.upper speaker = Some voice ->
                 resolve_voice speaker = inr voice) /\
  (VOICE_MAP !! Str.upper speaker = None ->
   resolve_voice speaker = dict_getitem VOICE_MAP "NARRATOR" /\
   resolve_voice speaker = inr "alloy") /\
  (forall other, Str.upper other = Str.upper speaker ->
                 resolve_voice other = resolve_voice speaker) /\
  resolve_voice (Str.lower speaker) = resolve_voice speaker /\
  resolve_voice (Str.upper speaker) = resolve_voice speaker.
Proof.
  split; [|split; [|split; [|split; [|split]]]].
  - exists (default "alloy" (VOICE_MAP !! Str.upper speaker)). split.
    + apply resolve_voice_eq.
    + intros v Hv. rewrite resolve_voice_eq in Hv. congruence.
  - intros voice Hin. rewrite resolve_voice_eq, Hin. reflexivity.
  - intros Hout. unfold dict_getitem. rewrite narrator_configured.
    rewrite resolve_voice_eq, Hout. split; reflexivity.
  - intros other Heq. rewrite !resolve_voice_eq, Heq. reflexivity.
  - rewrite !resolve_voice_eq, upper_lower. reflexivity.
  - rewrite !resolve_voice_eq, upper_upper. reflexivity.
Qed.

Lemma resolve_voice_total_witness :
  resolve_voice "Chris" = inr "verse" /\ resolve_voice "Zeb" = inr "alloy".
Proof.
  split.
  - destruct (resolve_voice_total "Chris") as (_ & Hin & _).
    apply Hin. vm_compute. reflexivity.
  - destruct (resolve_voice_total "Zeb") as (_ & _ & Hout & _).
    apply Hout. vm_compute. reflexivity.
Defined.

(** ** The alias substitution *)

Lemma append_assoc (a b c : string) : (a +:+ b) +:+ c = a +:+ (b +:+ c).
Proof. induction a as [|x a IH]; cbn; [reflexivity | f_equal; exact IH]. Qed.

Lemma append_empty_r (a : string) : a +:+ EmptyString = a.
Proof. induction a as [|x a IH]; cbn; [reflexivity | f_equal; exact IH]. Qed.

Lemma startswith_split (l s : string) :
  Str.startswith l s = true -> s = l +:+ Str.drop (String.length l) s.
Proof.
  revert s. induction l as [|a l IH]; intros s H; [reflexivity|].
  destruct s as [|b s]; [discriminate|]. cbn in H.
  apply andb_true_iff in H as [Hab Hl].
  apply Ascii.eqb_eq in Hab. subst b. cbn. f_equal. now apply IH.
Qed.

Lemma startswith_append (l r : string) : Str.startswith l (l +:+ r) = true.
Proof.
  induction l as [|a l IH]; [reflexivity|].
  cbn. now rewrite Ascii.eqb_refl, IH.
Qed.

Lemma match_at_lits (l : string) (q : Re.pattern) (prev : option ascii) (s : string) :
  Re.match_at (lits l ++ q) prev s =
  if Str.startswith l s
  then option_map (Nat.add (String.length l))
                  (Re.match_at q (last_opt l prev) (Str.drop (String.length l) s))
  else None.
Proof.
  revert prev s. induction l as [|a l IH]; intros prev s.
  - cbn. destruct (Re.match_at q prev s); reflexivity.
  - destruct s as [|b s]; [reflexivity|].
    cbn [lits app Re.match_at Str.startswith String.length Str.drop last_opt].
    destruct (Ascii.eqb_spec a b) as [->|Hne]; [|reflexivity].
    rewrite IH. cbn [andb].
    destruct (Str.startswith l s); [|reflexivity].
    destruct (Re.match_at q (last_opt l (Some b)) (Str.drop (String.length l) s));
      reflexivity.
Qed.

Lemma startswith_head (a : ascii) (l s : string) :
  Str.startswith (String a l) s = true -> Re.head s = Some a.
Proof.
  destruct s as [|b s]; [discriminate|]. cbn.
  intros H. apply andb_true_iff in H as [Hab _].
  apply Ascii.eqb_eq in Hab. now subst.
Qed.

Lemma match_at_alias (prev : option ascii) (s : string) :
  Re.match_at (Re.Boundary :: lits "A.L.I.E." ++ [Re.Boundary]) prev s =
  if alias_here prev s then Some 8 else None.
Proof.
  cbn [Re.match_at]. rewrite match_at_lits. unfold alias_here.
  destruct (Str.startswith "A.L.I.E." s) eqn:Hs.
  - rewrite (startswith_head _ _ _ Hs).
    cbn [Re.match_at last_opt String.length].
    change (Re.isword_opt (Some "A"%char)) with true.
    change (Re.isword_opt (Some "."%char)) with false.
    destruct (Re.isword_opt prev);
      destruct (Re.isword_opt (Re.head (Str.drop 8 s))); reflexivity.
  - cbn. destruct (xorb _ _); reflexivity.
Qed.

Lemma allie_nil (prev : option ascii) : allie prev EmptyString = EmptyString.
Proof.
  unfold allie. cbn [Re.sub_go]. rewrite match_at_alias. reflexivity.
Qed.

Lemma allie_cons (prev : option ascii) (c : ascii) (s : string) :
  allie prev (String c s) =
  if alias_here prev (String c s)
  then "Allie" +:+ allie (Some "."%char) (Str.drop 7 s)
  else String c (allie (Some c) s).
Proof.
  unfold allie. cbn [Re.sub_go]. rewrite match_at_alias.
  destruct (alias_here prev (String c s)) eqn:E; [|reflexivity].
  unfold alias_here in E.
  apply andb_true_iff in E as [E _]. apply andb_true_iff in E as [E _].
  apply startswith_split in E. cbn in E. injection E as -> E.
  rewrite E. reflexivity.
Qed.

Lemma normalize_text_allie (text : string) :
  normalize_text text = allie None (collapse_whitespace text).
Proof. reflexivity. Qed.

Global Opaque allie.

Lemma alias_here_starts (prev : option ascii) (s : string) :
  alias_here prev s = true ->
  exists r, s = "A.L.I.E." +:+ r
            /\ Re.isword_opt prev = false
            /\ Re.isword_opt (Re.head r) = true.
Proof.
  unfold alias_here. intros H.
  apply andb_true_iff in H as [H Hafter]. apply andb_true_iff in H as [Hs Hprev].
  exists (Str.drop 8 s). split; [|split].
  - exact (startswith_split _ _ Hs).
  - now apply negb_true_iff in Hprev.
  - exact Hafter.
Qed.

Lemma alias_here_other (prev : option ascii) (c : ascii) (s : string) :
  Ascii.eqb "A" c = false -> alias_here prev (String c s) = false.
Proof.
  intros H. unfold alias_here. cbn [Str.startswith]. rewrite H. reflexivity.
Qed.

Lemma alias_here_Al (prev : option ascii) (s : string) :
  alias_here prev (String "A" (String "l" s)) = false.
Proof. reflexivity. Qed.

(** The replacement starts with the first character of the alias, so the
    substitution never changes the first character of a text. *)
Lemma allie_head (prev : option ascii) (s : string) :
  Re.head (allie prev s) = Re.head s.
Proof.
  destruct s as [|c s]; [now rewrite allie_nil|].
  rewrite allie_cons. destruct (alias_here prev (String c s)) eqn:E; [|reflexivity].
  apply alias_here_starts in E as (r & Hs & _). injection Hs as -> _. reflexivity.
Qed.

(** No match starts inside a replacement. *)
Lemma allie_after_replacement (prev : option ascii) (s : string) :
  allie prev ("Allie" +:+ s) = "Allie" +:+ allie (Some "e"%char) s.
Proof.
  cbn [String.append].
  rewrite allie_cons, alias_here_Al.
  do 4 (rewrite allie_cons, alias_here_other by reflexivity).
  reflexivity.
Qed.

(** A prefix without the letter A in the output was there in the input. *)
Lemma allie_prefix_transfer (l : string) :
  no_capital_a l = true ->
  forall (prev : option ascii) (s : string),
    Str.startswith l (allie prev s) = true ->
    Str.startswith l s = true /\
    Str.drop (String.length l) (allie prev s) =
    allie (last_opt l prev) (Str.drop (String.length l) s).
Proof.
  induction l as [|a l IH]; intros Hl prev s H; [split; reflexivity|].
  cbn [no_capital_a] in Hl.
  apply andb_true_iff in Hl as [Ha Hl]. apply negb_true_iff in Ha.
  destruct s as [|c s]; [rewrite allie_nil in H; discriminate|].
  rewrite allie_cons in H |- *.
  destruct (alias_here prev (String c s)) eqn:E.
  - cbn [Str.startswith String.append] in H.
    apply andb_true_iff in H as [H _].
    rewrite Ascii.eqb_sym in H. congruence.
  - cbn [Str.startswith] in H. apply andb_true_iff in H as [Hac H].
    apply Ascii.eqb_eq in Hac. subst c.
    destruct (IH Hl (Some a) s H) as [Hs Hd].
    cbn [Str.startswith String.length Str.drop last_opt].
    rewrite Ascii.eqb_refl, Hs. split; [reflexivity | exact Hd].
Qed.

(** A second pass of the substitution finds nothing to replace: whatever the
    context [prev'] of the output, as long as it is a word character
    whenever the context of the input was one. *)
Lemma allie_fixed (n : nat) :
  forall (s : string), String.length s <= n ->
  forall prev prev' : option ascii,
    (Re.isword_opt prev' = false -> Re.isword_opt prev = false) ->
    allie prev' (allie prev s) = allie prev s.
Proof.
  induction n as [|n IH]; intros s Hlen prev prev' Hrel;
    (destruct s as [|c s]; [now rewrite !allie_nil|]); cbn in Hlen; [lia|].
  rewrite (allie_cons prev).
  destruct (alias_here prev (String c s)) eqn:E.
  - apply alias_here_starts in E as (r & Hs & _ & _).
    cbn in Hs. injection Hs as -> ->. cbn [Str.drop].
    rewrite allie_after_replacement. f_equal.
    apply IH; [cbn in Hlen; lia | discriminate].
  - rewrite allie_cons.
    destruct (alias_here prev' (String c (allie (Some c) s))) eqn:E'.
    + exfalso.
      apply alias_here_starts in E' as (r & Hs & Hprev' & Hafter).
      cbn in Hs. injection Hs as -> Hs.
      assert (Hp : Str.startswith ".L.I.E." (allie (Some "A"%char) s) = true)
        by (rewrite Hs; apply (startswith_append ".L.I.E.")).
      destruct (allie_prefix_transfer ".L.I.E." eq_refl _ _ Hp) as [Hin Hd].
      rewrite Hs in Hd. cbn in Hd. subst r.
      rewrite allie_head in Hafter.
      unfold alias_here in E. cbn in E. cbn in Hin.
      rewrite Hin, (Hrel Hprev') in E. cbn in E. congruence.
    + f_equal. apply IH; [lia | tauto].
Qed.

Lemma allie_idempotent (s : string) : allie None (allie None s) = allie None s.
Proof. apply (allie_fixed (String.length s)); [lia | tauto]. Qed.

(** The substitution keeps tidy text tidy. *)
Lemma allie_tidy_go (n : nat) :
  forall (s : string), String.length s <= n ->
  forall (prev : option ascii) (after_space : bool),
    tidy_go after_space s = true -> tidy_go after_space (allie prev s) = true.
Proof.
  induction n as [|n IH]; intros s Hlen prev ps Ht;
    (destruct s as [|c s]; [now rewrite allie_nil|]); cbn in Hlen; [lia|].
  rewrite allie_cons.
  destruct (alias_here prev (String c s)) eqn:E.
  - apply alias_here_starts in E as (r & Hs & _ & _).
    cbn in Hs. injection Hs as -> ->. cbn [Str.drop].
    cbn [String.append]. change (tidy_go false (allie (Some "."%char) r) = true).
    apply IH; [cbn in Hlen; lia | exact Ht].
  - cbn [tidy_go] in Ht |- *.
    destruct (Char.isspace c).
    + apply andb_true_iff in Ht as [Ht1 Ht2]. rewrite Ht1. cbn [andb].
      apply IH; [lia | exact Ht2].
    + apply IH; [lia | exact Ht].
Qed.

Lemma allie_tidy (s : string) : tidy s = true -> tidy (allie None s) = true.
Proof.
  unfold tidy. destruct s as [|c s]; [now rewrite allie_nil|].
  cbn [Str.is_empty orb]. intros Ht.
  rewrite (allie_tidy_go (String.length (String c s)) _ (le_n _) None true Ht).
  apply orb_true_r.
Qed.

(** ** Whitespace collapsing and trimming *)

Lemma single_spaced_sub_space_runs (in_run : bool) (s : string) :
  single_spaced in_run (Re.sub_space_runs " " in_run s) = true.
Proof.
  revert in_run. induction s as [|c s IH]; intros in_run; [reflexivity|].
  cbn [Re.sub_space_runs]. destruct (Char.isspace c) eqn:Hc.
  - destruct in_run; [apply IH|].
    cbn [String.append single_spaced].
    change (Char.isspace " ") with true. cbn. apply IH.
  - cbn [single_spaced]. rewrite Hc. apply IH.
Qed.

Lemma single_spaced_lstrip (after_space : bool) (s : string) :
  single_spaced after_space s = true ->
  single_spaced true (Str.lstrip_by Char.isspace s) = true.
Proof.
  revert after_space. induction s as [|c s IH]; intros ps H; [reflexivity|].
  cbn [Str.lstrip_by single_spaced] in *. destruct (Char.isspace c) eqn:Hc.
  - apply andb_true_iff in H as [_ H]. now apply (IH true).
  - cbn [single_spaced]. rewrite Hc. exact H.
Qed.

Lemma rstrip_cons (p : ascii -> bool) (c : ascii) (s : string) :
  p c = false ->
  Str.rstrip_by p (String c s) = String c (Str.rstrip_by p s).
Proof.
  intros Hc. cbn [Str.rstrip_by]. rewrite Hc.
  destruct (Str.rstrip_by p s); reflexivity.
Qed.

Lemma tidy_go_rstrip (after_space : bool) (s : string) :
  single_spaced after_space s = true ->
  Str.rstrip_by Char.isspace s = EmptyString \/
  tidy_go after_space (Str.rstrip_by Char.isspace s) = true.
Proof.
  revert after_space. induction s as [|c s IH]; intros ps H; [now left|].
  cbn [single_spaced] in H. destruct (Char.isspace c) eqn:Hc.
  - apply andb_true_iff in H as [Hsp H].
    cbn [Str.rstrip_by]. rewrite Hc.
    destruct (IH true H) as [He|Ht].
    + rewrite He. now left.
    + destruct (Str.rstrip_by Char.isspace s) as [|d r] eqn:Hr; [now left|].
      right. cbn [tidy_go] in Ht |- *. rewrite Hc, Hsp. exact Ht.
  - rewrite (rstrip_cons _ _ _ Hc). right.
    cbn [tidy_go]. rewrite Hc.
    destruct (IH false H) as [He|Ht]; [now rewrite He | exact Ht].
Qed.

(** The first step of the normalizer yields tidy text. *)
Lemma collapse_whitespace_tidy (text : string) :
  tidy (collapse_whitespace text) = true.
Proof.
  unfold collapse_whitespace, Str.strip, Str.strip_by, tidy.
  destruct (tidy_go_rstrip true
              (Str.lstrip_by Char.isspace (Re.sub_space_runs " " false text)))
    as [He|Ht].
  - apply (single_spaced_lstrip false), single_spaced_sub_space_runs.
  - now rewrite He.
  - rewrite Ht. apply orb_true_r.
Qed.

Lemma tidy_go_sub_space_runs (after_space in_run : bool) (s : string) :
  tidy_go after_space s = true -> (in_run = true -> after_space = true) ->
  Re.sub_space_runs " " in_run s = s.
Proof.
  revert after_space in_run. induction s as [|c s IH]; intros ps r H Hr; [reflexivity|].
  cbn [tidy_go Re.sub_space_runs] in *. destruct (Char.isspace c).
  - apply andb_true_iff in H as [H Hs]. apply andb_true_iff in H as [Hc Hps].
    apply Ascii.eqb_eq in Hc. apply negb_true_iff in Hps. subst c.
    destruct r; [specialize (Hr eq_refl); congruence|].
    cbn [String.append]. f_equal. now apply (IH true true).
  - f_equal. apply (IH false false); [exact H | discriminate].
Qed.

Lemma tidy_go_lstrip (s : string) :
  tidy_go true s = true -> Str.lstrip_by Char.isspace s = s.
Proof.
  destruct s as [|c s]; [reflexivity|].
  cbn [tidy_go Str.lstrip_by]. destruct (Char.isspace c); [|reflexivity].
  rewrite andb_false_r. discriminate.
Qed.

Lemma tidy_go_rstrip_fixed (after_space : bool) (s : string) :
  tidy_go after_space s = true -> Str.rstrip_by Char.isspace s = s.
Proof.
  revert after_space. induction s as [|c s IH]; intros ps H; [reflexivity|].
  cbn [tidy_go] in H. destruct (Char.isspace c) eqn:Hc.
  - apply andb_true_iff in H as [_ H].
    cbn [Str.rstrip_by]. rewrite (IH true H).
    destruct s; [discriminate | reflexivity].
  - rewrite (rstrip_cons _ _ _ Hc). f_equal. now apply (IH false).
Qed.

(** Tidy text is left alone by the first step. *)
Lemma collapse_whitespace_fixed (text : string) :
  tidy text = true -> collapse_whitespace text = text.
Proof.
  unfold tidy. destruct text as [|c s]; [reflexivity|].
  cbn [Str.is_empty orb]. intros Ht.
  unfold collapse_whitespace, Str.strip, Str.strip_by.
  rewrite (tidy_go_sub_space_runs true false _ Ht) by discriminate.
  rewrite (tidy_go_lstrip _ Ht). apply (tidy_go_rstrip_fixed true _ Ht).
Qed.

(** C5. The pronunciation normalizer is idempotent on every text: a second
    pass of whitespace collapsing, trimming and alias substitution changes
    nothing. *)
Theorem normalize_text_idempotent (x : string) :
  normalize_text (normalize_text x) = normalize_text x.
Proof.
  rewrite !normalize_text_allie.
  rewrite (collapse_whitespace_fixed (allie None (collapse_whitespace x))).
  - apply allie_idempotent.
  - apply allie_tidy, collapse_whitespace_tidy.
Qed.

(** ** The first step of the normalizer against its specification *)

Lemma fields_cons (s : string) : exists f fs, WordsSpec.fields s = f :: fs.
Proof.
  destruct s as [|c s]; [now exists EmptyString, []|].
  cbn [WordsSpec.fields]. destruct (Char.isspace c); [now eauto|].
  destruct (WordsSpec.fields s); eauto.
Qed.

Lemma join_spaced (w : string) (ws : list string) :
  Str.join " " (w :: ws) = w +:+ spaced ws.
Proof.
  revert w. induction ws as [|v ws IH]; intros w.
  - cbn. now rewrite append_empty_r.
  - change (Str.join " " (w :: v :: ws))
      with (w +:+ " " +:+ Str.join " " (v :: ws)).
    rewrite IH. reflexivity.
Qed.

Lemma append_is_empty (a b : string) :
  Str.is_empty a = false -> exists c r, a +:+ b = String c r.
Proof. destruct a as [|c a]; [discriminate|]. cbn. eauto. Qed.

(** After a whitespace character the scan yields the words joined by single
    spaces; elsewhere it yields the first field followed by the later words,
    each with a space in front. *)
Lemma rstrip_sub_space_runs (s : string) :
  Str.rstrip_by Char.isspace (Re.sub_space_runs " " true s)
  = Str.join " " (WordsSpec.words s)
  /\ (forall f fs, WordsSpec.fields s = f :: fs ->
        Str.rstrip_by Char.isspace (Re.sub_space_runs " " false s)
        = f +:+ spaced (List.filter (fun f => negb (Str.is_empty f)) fs)).
Proof.
  induction s as [|c s [IHt IHf]].
  - split; [reflexivity|]. intros f fs H. injection H as <- <-. reflexivity.
  - unfold WordsSpec.words in *.
    cbn [Re.sub_space_runs WordsSpec.fields].
    destruct (Char.isspace c) eqn:Hc.
    + split; [exact IHt|].
      intros f fs H. injection H as <- <-.
      cbn [String.append Str.rstrip_by].
      change (Char.isspace " ") with true. rewrite IHt.
      destruct (List.filter _ (WordsSpec.fields s)) as [|w ws] eqn:Hw;
        [reflexivity|].
      rewrite join_spaced.
      assert (Hne : Str.is_empty w = false).
      { assert (Hin : In w (List.filter (fun f => negb (Str.is_empty f))
                                         (WordsSpec.fields s)))
          by (rewrite Hw; now left).
        apply filter_In in Hin as [_ Hin]. now apply negb_true_iff in Hin. }
      cbn [spaced].
      destruct (append_is_empty w (spaced ws) Hne) as (d & r & ->).
      reflexivity.
    + destruct (fields_cons s) as (f & fs & Hf). rewrite Hf.
      rewrite !(rstrip_cons _ _ _ Hc), (IHf f fs Hf).
      split.
      * cbn [List.filter Str.is_empty negb]. now rewrite join_spaced.
      * intros f' fs' H. injection H as <- <-. reflexivity.
Qed.

Lemma lstrip_sub_space_runs (s : string) :
  Str.lstrip_by Char.isspace (Re.sub_space_runs " " false s)
  = Re.sub_space_runs " " true s.
Proof.
  induction s as [|c s IH]; [reflexivity|].
  cbn [Re.sub_space_runs]. destruct (Char.isspace c) eqn:Hc.
  - cbn [String.append Str.lstrip_by]. change (Char.isspace " ") with true.
    clear IH. induction s as [|d s IH]; [reflexivity|].
    cbn [Re.sub_space_runs]. destruct (Char.isspace d) eqn:Hd; [exact IH|].
    cbn [Str.lstrip_by]. now rewrite Hd.
  - cbn [Str.lstrip_by]. now rewrite Hc.
Qed.

Lemma collapse_whitespace_spec (text : string) :
  collapse_whitespace text = WordsSpec.collapse_spec text.
Proof.
  unfold collapse_whitespace, Str.strip, Str.strip_by, WordsSpec.collapse_spec.
  rewrite lstrip_sub_space_runs. apply rstrip_sub_space_runs.
Qed.

Lemma apply_aliases_cons (p : Re.pattern) (repl : string)
      (table : list (Re.pattern * string)) (text : string) :
  apply_aliases ((p, repl) :: table) text = apply_aliases table (Re.sub p repl text).
Proof. reflexivity. Qed.

Lemma length_drop (n : nat) (s : string) :
  String.length (Str.drop n s) <= String.length s.
Proof.
  revert s. induction n as [|n IH]; intros [|c s]; cbn [Str.drop String.length];
    try lia.
  specialize (IH s). lia.
Qed.

(** The substitution of the alias is the respelling of the specification. *)
Lemma allie_respell (fuel : nat) :
  forall (s : string) (prev : option ascii),
    String.length s <= fuel -> allie prev s = AliasSpec.respell_go fuel prev s.
Proof.
  induction fuel as [|fuel IH]; intros [|c s] prev Hlen;
    try apply allie_nil; [cbn in Hlen; lia|].
  rewrite allie_cons. cbn [AliasSpec.respell_go String.length] in *.
  destruct (alias_here prev (String c s)).
  - change (Str.drop 8 (String c s)) with (Str.drop 7 s).
    f_equal. apply IH. pose proof (length_drop 7 s). lia.
  - f_equal. apply IH. lia.
Qed.

Lemma apply_aliases_respell (t : string) :
  apply_aliases PRONUNCIATION_ALIASES t = AliasSpec.respell t.
Proof.
  change (apply_aliases PRONUNCIATION_ALIASES t) with (allie None t).
  apply allie_respell, le_n.
Qed.

(** C9. On every text, the normalizer first rewrites the text as its words
    (the maximal runs of characters that are not whitespace) joined by single
    spaces, with nothing at either end, and then substitutes the alias pairs
    one after the other in the order of the table, each by a regular
    expression substitution over the whole text. For the table of the
    source the second step is the respelling of the specification: every
    occurrence of the abbreviation between two word boundaries becomes its
    phonetic spelling, from left to right, and nothing else changes. The
    order of a table is the order of the substitutions, and it shows in the
    result. The result is a function of the text alone. *)
Theorem normalize_text_spec (text : string) :
  collapse_whitespace text = Str.join " " (WordsSpec.words text)
  /\ tidy (collapse_whitespace text) = true
  /\ normalize_text text
     = fold_left (fun t pr => Re.sub (fst pr) (snd pr) t)
                 PRONUNCIATION_ALIASES
                 (Str.join " " (WordsSpec.words text))
  /\ normalize_text text
     = Re.sub [Re.Boundary; Re.Lit "A"; Re.Lit "."; Re.Lit "L"; Re.Lit ".";
               Re.Lit "I"; Re.Lit "."; Re.Lit "E"; Re.Lit "."; Re.Boundary]
              "Allie" (Str.join " " (WordsSpec.words text))
  /\ normalize_text text
     = AliasSpec.respell (Str.join " " (WordsSpec.words text))
  /\ (forall p repl table t,
        apply_aliases ((p, repl) :: table) t
        = apply_aliases table (Re.sub p repl t))
  /\ apply_aliases [([Re.Lit "a"], "b"); ([Re.Lit "b"], "c")] "a" = "c"
  /\ apply_aliases [([Re.Lit "b"], "c"); ([Re.Lit "a"], "b")] "a" = "b".
Proof.
  pose proof (collapse_whitespace_spec text) as Hs.
  unfold WordsSpec.collapse_spec in Hs.
  split; [exact Hs|]. split; [apply collapse_whitespace_tidy|].
  split; [unfold normalize_text, apply_aliases; rewrite Hs; reflexivity|].
  split; [unfold normalize_text, apply_aliases; rewrite Hs; reflexivity|].
  split; [unfold normalize_text; rewrite Hs; apply apply_aliases_respell|].
  split; [intros p repl table t; reflexivity|].
  split; vm_compute; reflexivity.
Qed.

(** ** The silence generator *)

Section SilenceGenerator.

Variable ext : oracle.

Lemma make_silence_installed (seconds : PyFloat.t) (idx : nat) (w : world) :
  ffmpeg_on_path w = true ->
  make_silence ext seconds idx w
  = Return (segment_path idx "silence" "wav") (after_silence ext seconds idx w).
Proof.
  intros Hw. unfold make_silence, bind, _check_ffmpeg. rewrite Hw.
  change (Str.lower SAMPLE_EXT) with "wav".
  change (String.eqb "wav" "mp3") with false. cbv iota.
  unfold try_except, run_ffmpeg, after_silence, silence_call, bind.
  destruct (ffmpeg_answer ext w _); reflexivity.
Qed.

Lemma make_silence_missing (seconds : PyFloat.t) (idx : nat) (w : world) :
  ffmpeg_on_path w = false ->
  make_silence ext seconds idx w = Raise (RuntimeError check_ffmpeg_message) w.
Proof.
  intros Hw. unfold make_silence, bind, _check_ffmpeg. rewrite Hw. reflexivity.
Qed.

Lemma transcode_failure_is_fatal (src dst : string) (w : world) :
  ffmpeg_on_path w = true ->
  ffmpeg_answer ext w (FfmpegTranscode src dst) = None ->
  _transcode_to_wav ext src dst w
  = Raise CalledProcessError (add_call (FfmpegTranscode src dst) w).
Proof.
  intros Hw Hf. unfold _transcode_to_wav, bind, _check_ffmpeg, run_ffmpeg.
  rewrite Hw, Hf. reflexivity.
Qed.

(** C2, as the code has it. When the media tool is installed, a failure of
    the command that generates the silence does not abort the run: the
    segment's path is returned and an empty file stands at that path; with
    the tool installed make_silence returns in every case, while the same
    failure in the transcoder is fatal. When the tool is not installed,
    make_silence raises the configuration error before doing anything. *)
Theorem make_silence_failure_policy (seconds : PyFloat.t) (idx : nat) (w : world) :
  let out := segment_path idx "silence" "wav" in
  let c := FfmpegSilence seconds Pcm24kMono out in
  (ffmpeg_on_path w = true -> ffmpeg_answer ext w c = None ->
     make_silence ext seconds idx w = Return out (put_file out EmptyString (add_call c w))
     /\ files (put_file out EmptyString (add_call c w)) !! out = Some EmptyString)
  /\ (ffmpeg_on_path w = true ->
      exists w', make_silence ext seconds idx w = Return out w')
  /\ (forall src dst,
        ffmpeg_on_path w = true ->
        ffmpeg_answer ext w (FfmpegTranscode src dst) = None ->
        _transcode_to_wav ext src dst w
        = Raise CalledProcessError (add_call (FfmpegTranscode src dst) w))
  /\ (ffmpeg_on_path w = false ->
      make_silence ext seconds idx w = Raise (RuntimeError check_ffmpeg_message) w).
Proof.
  intros out c. split; [|split; [|split]].
  - intros Hw Hf. split.
    + rewrite (make_silence_installed _ _ _ Hw).
      unfold after_silence, silence_call. fold out. fold c. rewrite Hf. reflexivity.
    + cbn [put_file files]. apply lookup_insert_eq.
  - intros Hw. eexists. apply (make_silence_installed _ _ _ Hw).
  - intros src dst. apply transcode_failure_is_fatal.
  - apply make_silence_missing.
Qed.

End SilenceGenerator.

Lemma make_silence_failure_policy_witness :
  make_silence failing_ffmpeg_oracle PyFloat.lit_0_25 3 fresh_world
  = Return "output_build/00003_silence.wav"
      (put_file "output_build/00003_silence.wav" EmptyString
         (add_call (FfmpegSilence PyFloat.lit_0_25 Pcm24kMono
                                  "output_build/00003_silence.wav") fresh_world))
  /\ make_silence ok_oracle PyFloat.lit_0_25 3 no_ffmpeg_world
     = Raise (RuntimeError check_ffmpeg_message) no_ffmpeg_world.
Proof.
  split.
  - destruct (make_silence_failure_policy failing_ffmpeg_oracle
                PyFloat.lit_0_25 3 fresh_world) as (Hfail & _).
    apply Hfail; reflexivity.
  - destruct (make_silence_failure_policy ok_oracle
                PyFloat.lit_0_25 3 no_ffmpeg_world) as (_ & _ & _ & Hmiss).
    apply Hmiss. reflexivity.
Defined.

(** C2 as stated fails when the cause of the failure is the missing tool:
    make_silence raises, writes no placeholder and returns no path. *)
Lemma make_silence_missing_tool_aborts :
  make_silence ok_oracle PyFloat.lit_0_25 0 no_ffmpeg_world
  = Raise (RuntimeError check_ffmpeg_message) no_ffmpeg_world
  /\ files (world_of (make_silence ok_oracle PyFloat.lit_0_25 0 no_ffmpeg_world))
       !! "output_build/00000_silence.wav" = None
  /\ ~ (exists path w',
          make_silence ok_oracle PyFloat.lit_0_25 0 no_ffmpeg_world = Return path w').
Proof.
  assert (H : make_silence ok_oracle PyFloat.lit_0_25 0 no_ffmpeg_world
              = Raise (RuntimeError check_ffmpeg_message) no_ffmpeg_world)
    by reflexivity.
  split; [exact H|]. split.
  - rewrite H. reflexivity.
  - intros (path & w' & Hr). rewrite H in Hr. discriminate.
Qed.

(** ** Pause cells *)

Lemma length_append (a b : string) :
  String.length (a +:+ b) = String.length a + String.length b.
Proof. induction a as [|x a IH]; cbn; [reflexivity | now rewrite IH]. Qed.

Lemma drop_append (a b : string) : Str.drop (String.length a) (a +:+ b) = b.
Proof. induction a as [|x a IH]; cbn; [reflexivity | exact IH]. Qed.

Lemma endswith_append (a b : string) : Str.endswith b (a +:+ b) = true.
Proof.
  unfold Str.endswith. rewrite length_append.
  replace (String.length a + String.length b - String.length b)
    with (String.length a) by lia.
  rewrite drop_append, String.eqb_refl.
  apply andb_true_iff. split; [|reflexivity]. apply Nat.leb_le. lia.
Qed.

Lemma drop_last_append (a : string) (c : ascii) :
  Str.drop_last (a +:+ String c EmptyString) = a.
Proof.
  induction a as [|x a IH]; [reflexivity|].
  cbn [String.append Str.drop_last]. rewrite IH.
  destruct a; reflexivity.
Qed.

(** What the dispatcher reads off a cell of the form [[PAUSE=inner]]. *)
Lemma pause_cell_tests (inner : string) :
  let cell := "[PAUSE=" +:+ inner +:+ "]" in
  Str.is_empty cell = false
  /\ Str.startswith "speaker" (Str.lower cell) = false
  /\ Str.startswith "[PAUSE=" cell && Str.endswith "]" cell = true
  /\ Str.slice_to_last 7 cell = inner.
Proof.
  intros cell. split; [reflexivity|]. split; [reflexivity|]. split.
  - change (Str.startswith "[PAUSE=" cell) with true.
    apply (endswith_append ("[PAUSE=" +:+ inner) "]").
  - unfold Str.slice_to_last. change (Str.drop 7 cell) with (inner +:+ "]").
    apply drop_last_append.
Qed.

Lemma pause_seconds_eq (inner : string) :
  pause_seconds ("[PAUSE=" +:+ inner +:+ "]")
  = default PyFloat.lit_0_5 (PyFloat.of_string inner).
Proof.
  unfold pause_seconds.
  destruct (pause_cell_tests inner) as (_ & _ & _ & ->).
  destruct (PyFloat.of_string inner); reflexivity.
Qed.

(** ** The dispatcher, row by row *)

Section Dispatcher.

Variable ext : oracle.

Lemma process_row_pause (c inner : string) (parts : list string) (idx : nat)
      (w : world) :
  Str.strip c = "[PAUSE=" +:+ inner +:+ "]" ->
  process_row ext [c] (parts, idx) w
  = bind (make_silence ext (default PyFloat.lit_0_5 (PyFloat.of_string inner)) idx)
         (fun p => ret (parts ++ [p], S idx)) w.
Proof.
  intros Hc. unfold process_row. rewrite Hc.
  destruct (pause_cell_tests inner) as (-> & -> & -> & _).
  rewrite pause_seconds_eq. reflexivity.
Qed.

(** C6, as the code has it. A single-cell row whose cell, once trimmed, is
    [[PAUSE=inner]] makes the dispatcher emit exactly one segment when the
    media tool is installed: a silence whose duration is the float [inner]
    spells, or 0.5 seconds when [inner] does not parse as a float; the
    speech service is not called. When the media tool is not installed the
    same row raises the configuration error and emits nothing. *)
Theorem pause_row_emits_one_silence (c inner : string) (parts : list string)
        (idx : nat) (w : world) :
  Str.strip c = "[PAUSE=" +:+ inner +:+ "]" ->
  let seconds :=
    match PyFloat.of_string inner with
    | Some v => v
    | None => PyFloat.lit_0_5
    end in
  let out := segment_path idx "silence" "wav" in
  (ffmpeg_on_path w = true ->
   exists w',
     process_row ext [c] (parts, idx) w = Return (parts ++ [out], S idx) w'
     /\ log w' = log w ++ [FfmpegSilence seconds Pcm24kMono out]
     /\ is_Some (files w' !! out))
  /\ (ffmpeg_on_path w = false ->
      process_row ext [c] (parts, idx) w
      = Raise (RuntimeError check_ffmpeg_message) w).
Proof.
  intros Hc seconds out.
  rewrite (process_row_pause _ _ _ _ _ Hc). unfold bind.
  replace (default PyFloat.lit_0_5 (PyFloat.of_string inner)) with seconds
    by (subst seconds; destruct (PyFloat.of_string inner); reflexivity).
  split; intros Hw.
  - exists (after_silence ext seconds idx w).
    rewrite (make_silence_installed _ _ _ _ Hw).
    split; [reflexivity|]. split; [reflexivity|].
    unfold after_silence. cbn [put_file files]. fold out.
    rewrite lookup_insert_eq. eauto.
  - rewrite (make_silence_missing _ _ _ _ Hw). reflexivity.
Qed.

End Dispatcher.

Lemma pause_row_emits_one_silence_witness :
  (exists w',
     process_row ok_oracle ["[PAUSE=2.5]"] ([], 0) fresh_world
     = Return (["output_build/00000_silence.wav"], 1) w'
     /\ log w' = [FfmpegSilence (PyFloat.Finite false 25 (-1)) Pcm24kMono
                                "output_build/00000_silence.wav"])
  /\ (exists w',
        process_row ok_oracle [" [PAUSE=abc]"] ([], 0) fresh_world
        = Return (["output_build/00000_silence.wav"], 1) w'
        /\ log w' = [FfmpegSilence PyFloat.lit_0_5 Pcm24kMono
                                   "output_build/00000_silence.wav"])
  /\ (exists w',
        process_row ok_oracle [separated_pause_cell] ([], 0) fresh_world
        = Return (["output_build/00000_silence.wav"], 1) w'
        /\ log w' = [FfmpegSilence PyFloat.lit_0_5 Pcm24kMono
                                   "output_build/00000_silence.wav"])
  /\ process_row ok_oracle ["[PAUSE=2.5]"] ([], 0) no_ffmpeg_world
     = Raise (RuntimeError check_ffmpeg_message) no_ffmpeg_world.
Proof.
  split; [|split; [|split]].
  - destruct (pause_row_emits_one_silence ok_oracle "[PAUSE=2.5]" "2.5" [] 0
                fresh_world eq_refl) as (Hrun & _).
    destruct (Hrun eq_refl) as (w' & Hrow & Hlog & _).
    exists w'. split; [exact Hrow | exact Hlog].
  - destruct (pause_row_emits_one_silence ok_oracle " [PAUSE=abc]" "abc" [] 0
                fresh_world eq_refl) as (Hrun & _).
    destruct (Hrun eq_refl) as (w' & Hrow & Hlog & _).
    exists w'. split; [exact Hrow | exact Hlog].
  - destruct (pause_row_emits_one_silence ok_oracle separated_pause_cell
                (String (ascii_of_nat 31) ("2" +:+ String (ascii_of_nat 28) ""))
                [] 0 fresh_world eq_refl) as (Hrun & _).
    destruct (Hrun eq_refl) as (w' & Hrow & Hlog & _).
    exists w'. split; [exact Hrow | exact Hlog].
  - destruct (pause_row_emits_one_silence ok_oracle "[PAUSE=2.5]" "2.5" [] 0
                no_ffmpeg_world eq_refl) as (_ & Hmiss).
    exact (Hmiss eq_refl).
Defined.

(** C6 as stated fails when the media tool is not installed: the pause row
    [[PAUSE=2.5]] then emits no segment at all, the run is aborted by the
    configuration error, and nothing is requested or written. *)
Lemma pause_row_without_tool_aborts :
  process_row ok_oracle ["[PAUSE=2.5]"] ([], 0) no_ffmpeg_world
  = Raise (RuntimeError check_ffmpeg_message) no_ffmpeg_world
  /\ log (world_of (process_row ok_oracle ["[PAUSE=2.5]"] ([], 0)
                                 no_ffmpeg_world)) = []
  /\ files (world_of (process_row ok_oracle ["[PAUSE=2.5]"] ([], 0)
                                   no_ffmpeg_world))
     !! "output_build/00000_silence.wav" = None.
Proof.
  split; [reflexivity|]. split; reflexivity.
Qed.

(** ** The duration of a pause *)

(** What [float] accepts and what it returns, on texts at the edges: the
    separators FS to US are not whitespace for it, a decimal is rounded to
    the nearest binary64 number, too large a number becomes an infinity and
    too small a one a zero that keeps its sign. *)
Example of_string_examples :
  PyFloat.of_string (String (ascii_of_nat 31) ("2" +:+ String (ascii_of_nat 28) "")) = None
  /\ PyFloat.of_string (String (ascii_of_nat 9) ("2" +:+ String (ascii_of_nat 10) ""))
     = Some (PyFloat.Finite false 2 0)
  /\ PyFloat.of_string "1e400" = Some (PyFloat.Infinity false)
  /\ PyFloat.of_string "-1e-400" = Some (PyFloat.Finite true 0 0)
  /\ PyFloat.of_string "0.1"
     = Some (PyFloat.Finite false
               1000000000000000055511151231257827021181583404541015625 (-55))
  /\ PyFloat.of_string "9007199254740993"
     = Some (PyFloat.Finite false 9007199254740992 0)
  /\ PyFloat.of_string "1_0.5" = Some (PyFloat.Finite false 105 (-1))
  /\ PyFloat.of_string "-Infinity" = Some (PyFloat.Infinity true)
  /\ PyFloat.of_string "nan" = Some PyFloat.NaN
  /\ PyFloat.of_string "1e" = None
  /\ PyFloat.of_string "" = None.
Proof. vm_compute. repeat split. Qed.

Lemma round_sign (neg : bool) (mant : N) (exp10 : Z) :
  (exists m e, PyFloat.round neg mant exp10 = PyFloat.Finite neg m e)
  \/ PyFloat.round neg mant exp10 = PyFloat.Infinity neg.
Proof.
  unfold PyFloat.round. destruct mant as [|p]; [left; eauto|].
  destruct (if (0 <=? exp10)%Z then _ else _) as [m e].
  destruct m as [|q|q]; [left; eauto| |left; eauto].
  destruct (1024 <=? _)%Z; [right; reflexivity|].
  destruct (PyFloat.decimal_of_binary q e) as [dm de]. left; eauto.
Qed.

Lemma of_string_finite_sign (s : string) (neg : bool) (m : N) (e : Z) :
  PyFloat.of_string s = Some (PyFloat.Finite neg m e) ->
  neg = fst (PyFloat.sign (Str.strip_by PyFloat.isspace
                             (PyFloat.remove_underscores s))).
Proof.
  unfold PyFloat.of_string.
  destruct (PyFloat.underscores_ok None s); [|discriminate].
  destruct (PyFloat.sign _) as [written r]. cbn [fst].
  unfold PyFloat.special.
  destruct (_ || _); [discriminate|].
  destruct (String.eqb _ _); [discriminate|].
  destruct (PyFloat.decimal r) as [[m' e']|]; [|discriminate].
  cbn [option_map fst snd]. intros H. apply (inj Some) in H.
  destruct (round_sign written m' e') as [(m1 & e1 & Hr)|Hr];
    rewrite Hr in H; [|discriminate].
  now injection H.
Qed.

Section PauseDuration.

Variable ext : oracle.

(** C8, as the code has it. The duration of the silence emitted for a pause
    row is the float that the text between the brackets spells, and the
    0.5-second default when that text does not parse. A finite parsed value
    carries the sign written in the text, so it is a non-negative real
    exactly when no minus sign is written or the value is a zero (a number
    too small for binary64 rounds to a zero); an infinity and a NaN, which
    the text may also spell, are not non-negative reals; the default is a
    non-negative real. *)
Theorem pause_duration_value (c inner : string) (parts : list string)
        (idx : nat) (w : world) :
  Str.strip c = "[PAUSE=" +:+ inner +:+ "]" ->
  ffmpeg_on_path w = true ->
  exists seconds w',
    process_row ext [c] (parts, idx) w
    = Return (parts ++ [segment_path idx "silence" "wav"], S idx) w'
    /\ log w' = log w ++ [silence_call seconds idx]
    /\ (PyFloat.of_string inner = None ->
        seconds = PyFloat.lit_0_5 /\ PyFloat.nonneg_real seconds = true)
    /\ (forall v, PyFloat.of_string inner = Some v -> seconds = v)
    /\ (forall neg m e,
          PyFloat.of_string inner = Some (PyFloat.Finite neg m e) ->
          neg = fst (PyFloat.sign (Str.strip_by PyFloat.isspace
                                     (PyFloat.remove_underscores inner)))
          /\ (PyFloat.nonneg_real seconds = true <-> neg = false \/ m = 0%N))
    /\ (forall neg,
          PyFloat.of_string inner = Some (PyFloat.Infinity neg)
          \/ PyFloat.of_string inner = Some PyFloat.NaN ->
          PyFloat.nonneg_real seconds = false).
Proof.
  intros Hc Hw.
  exists (default PyFloat.lit_0_5 (PyFloat.of_string inner)).
  exists (after_silence ext (default PyFloat.lit_0_5 (PyFloat.of_string inner)) idx w).
  rewrite (process_row_pause _ _ _ _ _ _ Hc). unfold bind.
  rewrite (make_silence_installed _ _ _ _ Hw).
  split; [reflexivity|]. split; [reflexivity|]. split; [|split; [|split]].
  - intros ->. split; reflexivity.
  - intros v ->. reflexivity.
  - intros neg m e Hv. split; [exact (of_string_finite_sign _ _ _ _ Hv)|].
    rewrite Hv. change (negb neg || (m =? 0)%N = true <-> neg = false \/ m = 0%N).
    rewrite orb_true_iff, negb_true_iff, N.eqb_eq. reflexivity.
  - intros neg [-> | ->]; reflexivity.
Qed.

End PauseDuration.

Lemma pause_duration_value_witness :
  (exists seconds w',
     process_row ok_oracle ["[PAUSE=1e-1]"] ([], 0) fresh_world
     = Return (["output_build/00000_silence.wav"], 1) w'
     /\ log w' = [silence_call seconds 0]
     /\ seconds = PyFloat.Finite false
                    1000000000000000055511151231257827021181583404541015625 (-55)
     /\ PyFloat.nonneg_real seconds = true)
  /\ (exists seconds w',
        process_row ok_oracle ["[PAUSE=-1e-400]"] ([], 0) fresh_world
        = Return (["output_build/00000_silence.wav"], 1) w'
        /\ log w' = [silence_call seconds 0]
        /\ seconds = PyFloat.Finite true 0 0
        /\ PyFloat.nonneg_real seconds = true)
  /\ (exists seconds w',
        process_row ok_oracle ["[PAUSE=1e400]"] ([], 0) fresh_world
        = Return (["output_build/00000_silence.wav"], 1) w'
        /\ log w' = [silence_call seconds 0]
        /\ seconds = PyFloat.Infinity false
        /\ PyFloat.nonneg_real seconds = false).
Proof.
  split; [|split].
  - destruct (pause_duration_value ok_oracle "[PAUSE=1e-1]" "1e-1" [] 0
                fresh_world eq_refl eq_refl)
      as (seconds & w' & Hrow & Hlog & _ & Hval & Hsign & _).
    exists seconds, w'. split; [exact Hrow|]. split; [exact Hlog|].
    assert (Hf : PyFloat.of_string "1e-1"
                 = Some (PyFloat.Finite false
                           1000000000000000055511151231257827021181583404541015625
                           (-55)))
      by (vm_compute; reflexivity).
    split; [exact (Hval _ Hf)|].
    apply (proj2 (Hsign _ _ _ Hf)). left. reflexivity.
  - destruct (pause_duration_value ok_oracle "[PAUSE=-1e-400]" "-1e-400" [] 0
                fresh_world eq_refl eq_refl)
      as (seconds & w' & Hrow & Hlog & _ & Hval & Hsign & _).
    exists seconds, w'. split; [exact Hrow|]. split; [exact Hlog|].
    assert (Hf : PyFloat.of_string "-1e-400" = Some (PyFloat.Finite true 0 0))
      by (vm_compute; reflexivity).
    split; [exact (Hval _ Hf)|].
    apply (proj2 (Hsign _ _ _ Hf)). right. reflexivity.
  - destruct (pause_duration_value ok_oracle "[PAUSE=1e400]" "1e400" [] 0
                fresh_world eq_refl eq_refl)
      as (seconds & w' & Hrow & Hlog & _ & Hval & _ & Hinf).
    exists seconds, w'. split; [exact Hrow|]. split; [exact Hlog|].
    assert (Hf : PyFloat.of_string "1e400" = Some (PyFloat.Infinity false))
      by (vm_compute; reflexivity).
    split; [exact (Hval _ Hf)|].
    apply (Hinf false). left. exact Hf.
Defined.

(** C8 as stated fails for a number written with a minus sign: the row
    [[PAUSE=-3]] is a pause directive, its silence is requested with a
    duration of -3 seconds, which is not a non-negative real. *)
Lemma negative_pause_duration :
  exists w',
    process_row ok_oracle ["[PAUSE=-3]"] ([], 0) fresh_world
    = Return (["output_build/00000_silence.wav"], 1) w'
    /\ log w' = [FfmpegSilence (PyFloat.Finite true 3 0) Pcm24kMono
                               "output_build/00000_silence.wav"]
    /\ PyFloat.nonneg_real (PyFloat.Finite true 3 0) = false.
Proof.
  exists (after_silence ok_oracle (PyFloat.Finite true 3 0) 0 fresh_world).
  split; [vm_compute; reflexivity|]. split; reflexivity.
Qed.

(** ** Rows that are skipped *)

Section SkippedRows.

Variable ext : oracle.

(** An empty row, a blank cell, a single cell that starts with the header
    keyword and a single cell that is not a pause directive emit nothing:
    the state and the world are unchanged. *)
Lemma skipped_rows_emit_nothing (st : list string * nat) (w : world) :
  process_row ext [] st w = Return st w
  /\ (forall c, Str.is_empty (Str.strip c) = true ->
                process_row ext [c] st w = Return st w)
  /\ (forall c, Str.startswith "speaker" (Str.lower (Str.strip c)) = true ->
                process_row ext [c] st w = Return st w)
  /\ (forall c, Str.startswith "[PAUSE=" (Str.strip c)
                && Str.endswith "]" (Str.strip c) = false ->
                process_row ext [c] st w = Return st w).
Proof.
  destruct st as [parts idx]. unfold process_row.
  split; [reflexivity|]. split; [|split]; intros c H.
  - now rewrite H.
  - rewrite H. destruct (Str.is_empty _); reflexivity.
  - rewrite H. destruct (Str.is_empty _); [reflexivity|].
    destruct (Str.startswith "speaker" _); reflexivity.
Qed.

End SkippedRows.

(** C1, at the input where the code departs from it. The header row of a
    script, [Speaker|Text], reaches the dispatcher as two cells; the check
    for headers is made on single-cell rows only, so the row is read as a
    line of dialogue by an unknown speaker: it is synthesized with the
    fallback voice and followed by a pause, two segments instead of none. *)
Theorem header_row_is_synthesized :
  value_of (process_row ok_oracle ["Speaker"; "Text"] ([], 0) fresh_world)
  = Some (["output_build/00000_alloy.wav"; "output_build/00001_silence.wav"], 2)
  /\ log (world_of (process_row ok_oracle ["Speaker"; "Text"] ([], 0) fresh_world))
     = [ SpeechCreate "gpt-4o-mini-tts" "alloy" "Text" "output_build/00000_alloy.mp3";
         FfmpegTranscode "output_build/00000_alloy.mp3" "output_build/00000_alloy.wav";
         FfmpegSilence PyFloat.lit_0_25 Pcm24kMono "output_build/00001_silence.wav" ].
Proof. split; vm_compute; reflexivity. Qed.

(** ** Dialogue rows *)

Section DialogueRows.

Variable ext : oracle.

Lemma synth_to_file_cases (text voice : string) (idx : nat) (w : world) :
  synth_to_file ext text voice idx w =
  match speech_answer ext w (speech_call text voice idx) with
  | None => Raise ServiceError (add_call (speech_call text voice idx) w)
  | Some audio =>
      let w1 := put_file (segment_path idx voice "mp3") audio
                         (add_call (speech_call text voice idx) w) in
      if ffmpeg_on_path w then
        match ffmpeg_answer ext w1 (transcode_call voice idx) with
        | None => Raise CalledProcessError (add_call (transcode_call voice idx) w1)
        | Some wav =>
            Return (segment_path idx voice "wav")
                   (del_file (segment_path idx voice "mp3")
                      (put_file (segment_path idx voice "wav") wav
                         (add_call (transcode_call voice idx) w1)))
        end
      else Raise (RuntimeError check_ffmpeg_message) w1
  end.
Proof.
  unfold synth_to_file, bind, speech_to_file, speech_call.
  destruct (speech_answer ext w _) as [audio|]; [|reflexivity].
  change (String.eqb (Str.lower SAMPLE_EXT) "mp3") with false. cbv iota.
  unfold _transcode_to_wav, bind, _check_ffmpeg, record_call, write_file.
  cbn [ffmpeg_on_path add_call put_file].
  destruct (ffmpeg_on_path w); [|reflexivity].
  unfold run_ffmpeg, transcode_call, bind.
  destruct (ffmpeg_answer ext _ _); reflexivity.
Qed.

Lemma process_row_dialogue (c0 c1 : string) (extra : list string)
      (parts : list string) (idx : nat) (w : world) :
  Str.is_empty (Str.strip c0) && Str.is_empty (Str.strip_quotes (Str.strip c1)) = false ->
  process_row ext (c0 :: c1 :: extra) (parts, idx) w =
  bind (synth_to_file ext (Str.strip_quotes (Str.strip c1))
                      (default "alloy" (VOICE_MAP !! Str.upper (Str.strip c0))) idx)
       (fun audio_path =>
          bind (make_silence ext DEFAULT_INTERLINE_PAUSE (S idx))
               (fun p => ret ((parts ++ [audio_path]) ++ [p], S (S idx)))) w.
Proof.
  intros Hne. unfold process_row. rewrite Hne, resolve_voice_eq. reflexivity.
Qed.

Lemma process_row_both_empty (c0 c1 : string) (extra : list string)
      (st : list string * nat) (w : world) :
  Str.is_empty (Str.strip c0) && Str.is_empty (Str.strip_quotes (Str.strip c1)) = true ->
  process_row ext (c0 :: c1 :: extra) st w = Return st w.
Proof.
  intros He. destruct st as [parts idx]. unfold process_row. now rewrite He.
Qed.

(** The four ways a line of dialogue can end. *)
Lemma process_row_dialogue_cases (c0 c1 : string) (extra : list string)
      (parts : list string) (idx : nat) (w : world) :
  Str.is_empty (Str.strip c0) && Str.is_empty (Str.strip_quotes (Str.strip c1)) = false ->
  let text := Str.strip_quotes (Str.strip c1) in
  let voice := default "alloy" (VOICE_MAP !! Str.upper (Str.strip c0)) in
  process_row ext (c0 :: c1 :: extra) (parts, idx) w =
  match speech_answer ext w (speech_call text voice idx) with
  | None => Raise ServiceError (add_call (speech_call text voice idx) w)
  | Some audio =>
      let w1 := put_file (segment_path idx voice "mp3") audio
                         (add_call (speech_call text voice idx) w) in
      if ffmpeg_on_path w then
        match ffmpeg_answer ext w1 (transcode_call voice idx) with
        | None => Raise CalledProcessError (add_call (transcode_call voice idx) w1)
        | Some wav =>
            Return (parts ++ [segment_path idx voice "wav";
                              segment_path (S idx) "silence" "wav"], S (S idx))
                   (after_silence ext DEFAULT_INTERLINE_PAUSE (S idx)
                      (del_file (segment_path idx voice "mp3")
                         (put_file (segment_path idx voice "wav") wav
                            (add_call (transcode_call voice idx) w1))))
        end
      else Raise (RuntimeError check_ffmpeg_message) w1
  end.
Proof.
  intros Hne text voice.
  rewrite (process_row_dialogue _ _ _ _ _ _ Hne). fold text. fold voice.
  unfold bind at 1. rewrite synth_to_file_cases.
  destruct (speech_answer ext w _) as [audio|]; [|reflexivity].
  cbv zeta. destruct (ffmpeg_on_path w) eqn:Hw; [|reflexivity].
  destruct (ffmpeg_answer ext _ (transcode_call _ _)) as [wav|]; [|reflexivity].
  unfold bind. rewrite make_silence_installed by exact Hw.
  unfold ret. rewrite <- app_assoc. reflexivity.
Qed.

(** C4, as the code has it. A two-cell row whose speaker (the first cell,
    trimmed) and text (the second cell, trimmed and without its surrounding
    double quotes) are not both empty makes the dispatcher emit exactly two
    segments, in this order: the dialogue, synthesized with the resolved
    voice from the normalized text, and one pause of 0.25 seconds, whether
    or not the silence command succeeds. The run is assumed not to abort:
    the media tool is installed and the speech service and the transcoder
    answer. *)
Theorem dialogue_row_emits_two_segments (c0 c1 : string) (parts : list string)
        (idx : nat) (w : world) :
  Str.is_empty (Str.strip c0) && Str.is_empty (Str.strip_quotes (Str.strip c1)) = false ->
  ffmpeg_on_path w = true -> speech_works ext -> transcode_works ext ->
  exists voice w',
    resolve_voice (Str.strip c0) = inr voice
    /\ process_row ext [c0; c1] (parts, idx) w
       = Return (parts ++ [segment_path idx voice "wav";
                           segment_path (S idx) "silence" "wav"], S (S idx)) w'
    /\ log w' = log w ++
         [ SpeechCreate MODEL voice
                        (normalize_text (Str.strip_quotes (Str.strip c1)))
                        (segment_path idx voice "mp3");
           FfmpegTranscode (segment_path idx voice "mp3")
                           (segment_path idx voice "wav");
           FfmpegSilence (PyFloat.Finite false 25 (-2)) Pcm24kMono
                         (segment_path (S idx) "silence" "wav") ].
Proof.
  intros Hne Hw Hspeech Htrans.
  exists (default "alloy" (VOICE_MAP !! Str.upper (Str.strip c0))).
  rewrite (process_row_dialogue_cases _ _ _ _ _ _ Hne). cbv zeta.
  destruct (speech_answer ext w _) as [audio|] eqn:Ha;
    [|now apply Hspeech in Ha].
  rewrite Hw.
  destruct (ffmpeg_answer ext _ (transcode_call _ _)) as [wav|] eqn:Hb;
    [|now apply Htrans in Hb].
  eexists. split; [apply resolve_voice_eq|]. split; [reflexivity|].
  unfold after_silence, silence_call, speech_call, transcode_call.
  cbn [log put_file del_file add_call].
  rewrite <- !app_assoc. reflexivity.
Qed.

End DialogueRows.

Lemma ok_oracle_speech_works : speech_works ok_oracle.
Proof. intros w c. discriminate. Qed.

Lemma ok_oracle_transcode_works : transcode_works ok_oracle.
Proof. intros w src dst. discriminate. Qed.

Lemma dialogue_row_emits_two_segments_witness :
  exists w',
    process_row ok_oracle ["NARRATOR"; "Hello world"] ([], 0) fresh_world
    = Return (["output_build/00000_alloy.wav"; "output_build/00001_silence.wav"], 2) w'
    /\ log w' =
       [ SpeechCreate "gpt-4o-mini-tts" "alloy" "Hello world"
                      "output_build/00000_alloy.mp3";
         FfmpegTranscode "output_build/00000_alloy.mp3"
                         "output_build/00000_alloy.wav";
         FfmpegSilence (PyFloat.Finite false 25 (-2)) Pcm24kMono
                       "output_build/00001_silence.wav" ].
Proof.
  destruct (dialogue_row_emits_two_segments ok_oracle "NARRATOR" "Hello world"
              [] 0 fresh_world eq_refl eq_refl
              ok_oracle_speech_works ok_oracle_transcode_works)
    as (voice & w' & Hvoice & Hrow & Hlog).
  vm_compute in Hvoice. injection Hvoice as <-.
  exists w'. split; [exact Hrow | exact Hlog].
Defined.

(** C4 as stated fails on a row whose fields are not both empty after
    trimming but whose text is nothing but double quotes: the quotes are
    stripped before the test for emptiness, and the row is skipped. *)
Lemma quotes_only_row_is_skipped :
  Str.is_empty (Str.strip EmptyString) && Str.is_empty (Str.strip two_quotes) = false
  /\ process_row ok_oracle [EmptyString; two_quotes] ([], 0) fresh_world
     = Return ([], 0) fresh_world.
Proof. split; reflexivity. Qed.

(** ** Rows of two or more cells *)

Lemma lstrip_by_split (p : ascii -> bool) (s : string) :
  exists l, s = l +:+ Str.lstrip_by p s
            /\ all_in p l = true
            /\ (forall c, Re.head (Str.lstrip_by p s) = Some c -> p c = false).
Proof.
  induction s as [|a s (l & Hs & Hl & Hh)].
  - exists EmptyString. repeat split. discriminate.
  - cbn [Str.lstrip_by]. destruct (p a) eqn:Ha.
    + exists (String a l). cbn [String.append all_in]. rewrite Ha, Hl.
      split; [now rewrite <- Hs|]. split; [reflexivity | exact Hh].
    + exists EmptyString. split; [reflexivity|]. split; [reflexivity|].
      intros c [= <-]. exact Ha.
Qed.

Lemma rstrip_by_split (p : ascii -> bool) (s : string) :
  exists r, s = Str.rstrip_by p s +:+ r
            /\ all_in p r = true
            /\ (forall c, last_opt (Str.rstrip_by p s) None = Some c -> p c = false).
Proof.
  induction s as [|a s (r & Hs & Hr & Hlast)].
  - exists EmptyString. repeat split. discriminate.
  - cbn [Str.rstrip_by]. destruct (Str.rstrip_by p s) as [|b t] eqn:Ht.
    + cbn [String.append] in Hs. subst r. destruct (p a) eqn:Ha.
      * exists (String a s). cbn [String.append all_in]. rewrite Ha, Hr.
        repeat split. discriminate.
      * exists s. split; [reflexivity|]. split; [exact Hr|].
        intros c [= <-]. exact Ha.
    + exists r. cbn [String.append]. split; [now rewrite Hs|].
      split; [exact Hr|]. exact Hlast.
Qed.

Lemma rstrip_by_head (p : ascii -> bool) (s : string) (c : ascii) :
  Re.head (Str.rstrip_by p s) = Some c -> Re.head s = Some c.
Proof.
  destruct s as [|a s]; [discriminate|]. cbn [Str.rstrip_by].
  destruct (Str.rstrip_by p s); [destruct (p a)|]; [discriminate| |]; exact id.
Qed.

(** Stripping a class of characters leaves the core of the text. *)
Lemma strip_by_trimmed (p : ascii -> bool) (s : string) :
  trimmed p s (Str.strip_by p s).
Proof.
  unfold Str.strip_by.
  destruct (lstrip_by_split p s) as (l & Hs & Hl & Hhead).
  destruct (rstrip_by_split p (Str.lstrip_by p s)) as (r & Hs' & Hr & Hlast).
  split; [|split].
  - exists l, r. split; [|split; assumption].
    rewrite <- Hs'. exact Hs.
  - intros c Hc. apply Hhead. eapply rstrip_by_head, Hc.
  - exact Hlast.
Qed.

Section MultiCellRows.

Variable ext : oracle.

(** C10. A row of two or more cells is read through its first two cells
    only: the speaker is the first cell without the whitespace at its ends,
    the text is the second cell without the whitespace at its ends and then
    without the double quotes at its ends, and further cells change nothing.
    The row is skipped exactly when speaker and text are both empty;
    otherwise it is a line of dialogue, whose first effect is the request to
    the speech service for the normalized text in the voice resolved from
    the speaker. *)
Theorem multi_cell_row_is_dialogue (c0 c1 : string) (extra : list string)
        (parts : list string) (idx : nat) (w : world) :
  let speaker := Str.strip c0 in
  let text := Str.strip_quotes (Str.strip c1) in
  let result := process_row ext (c0 :: c1 :: extra) (parts, idx) w in
  result = process_row ext [c0; c1] (parts, idx) w
  /\ (Str.is_empty speaker && Str.is_empty text = true <->
      result = Return (parts, idx) w)
  /\ (Str.is_empty speaker && Str.is_empty text = false ->
      exists voice later,
        resolve_voice speaker = inr voice
        /\ log (world_of result)
           = log w ++ SpeechCreate MODEL voice (normalize_text text)
                                   (segment_path idx voice "mp3") :: later)
  /\ trimmed Char.isspace c0 speaker
  /\ (exists body,
        trimmed Char.isspace c1 body
        /\ trimmed (fun c => Ascii.eqb c Char.dquote) body text).
Proof.
  intros speaker text result.
  assert (Hdialogue :
    Str.is_empty speaker && Str.is_empty text = false ->
    result <> Return (parts, idx) w /\
    exists later,
      log (world_of result)
      = log w ++ speech_call text (default "alloy" (VOICE_MAP !! Str.upper speaker)) idx
                 :: later).
  { intros Hne. subst result.
    rewrite (process_row_dialogue_cases _ _ _ _ _ _ _ Hne). cbv zeta.
    fold speaker. fold text.
    destruct (speech_answer ext w _) as [audio|];
      [|split; [discriminate | exists []; reflexivity]].
    destruct (ffmpeg_on_path w);
      [|split; [discriminate | exists []; reflexivity]].
    destruct (ffmpeg_answer ext _ (transcode_call _ _)) as [wav|].
    - split; [intros H; injection H; lia|].
      eexists. unfold after_silence.
      cbn [world_of log put_file del_file add_call].
      rewrite <- !app_assoc. reflexivity.
    - split; [discriminate|].
      eexists. cbn [world_of log put_file add_call].
      rewrite <- !app_assoc. reflexivity. }
  split; [reflexivity|]. split; [split|split; [|split]].
  - apply process_row_both_empty.
  - intros Hskip.
    destruct (Str.is_empty speaker && Str.is_empty text) eqn:He; [reflexivity|].
    now destruct (Hdialogue eq_refl) as [Hne _].
  - intros Hne. destruct (Hdialogue Hne) as [_ [later Hlog]].
    eexists _, later. split; [apply resolve_voice_eq | exact Hlog].
  - apply strip_by_trimmed.
  - exists (Str.strip c1). split; [apply strip_by_trimmed|].
    apply (strip_by_trimmed (fun c => Ascii.eqb c Char.dquote)).
Qed.

End MultiCellRows.

Lemma multi_cell_row_is_dialogue_witness :
  (exists later,
     log (world_of (process_row failing_ffmpeg_oracle
                      [" chris "; quoted_cell; "ignored"; "too"] ([], 4)
                      fresh_world))
     = SpeechCreate "gpt-4o-mini-tts" "verse" "Hi, you"
                    "output_build/00004_verse.mp3"
       :: later)
  /\ process_row ok_oracle [" "; two_quotes; "ignored"] ([], 4) fresh_world
     = Return ([], 4) fresh_world.
Proof.
  destruct (multi_cell_row_is_dialogue failing_ffmpeg_oracle
              " chris " quoted_cell ["ignored"; "too"] [] 4 fresh_world)
    as (_ & _ & Hdialogue & _).
  destruct (Hdialogue eq_refl) as (voice & later & Hvoice & Hlog).
  vm_compute in Hvoice. injection Hvoice as <-.
  split; [exists later; exact Hlog|].
  destruct (multi_cell_row_is_dialogue ok_oracle
              " " two_quotes ["ignored"] [] 4 fresh_world)
    as (_ & Hskip & _).
  exact (proj1 Hskip eq_refl).
Defined.

(** ** Segment file names *)

Lemma index_value_zeros (k : nat) (s : string) :
  index_value (zeros k +:+ s) = index_value s.
Proof.
  induction k as [|k IH]; [reflexivity|].
  unfold index_value in *. cbn [zeros String.append NilEmpty.uint_of_string].
  destruct (NilEmpty.uint_of_string (zeros k +:+ s)) as [d|];
    destruct (NilEmpty.uint_of_string s) as [d'|]; try discriminate;
    [|reflexivity].
  cbn in IH |- *. exact IH.
Qed.

Lemma index_value_fmt_05d (idx : nat) : index_value (fmt_05d idx) = Some idx.
Proof.
  unfold fmt_05d. rewrite index_value_zeros.
  unfold index_value, str_of_nat. rewrite NilEmpty.usu. cbn [option_map].
  now rewrite DecimalNat.Unsigned.of_to.
Qed.

Lemma length_zeros (k : nat) : String.length (zeros k) = k.
Proof. induction k as [|k IH]; [reflexivity | cbn; now rewrite IH]. Qed.

Lemma length_fmt_05d (idx : nat) : 5 <= String.length (fmt_05d idx).
Proof.
  unfold fmt_05d.
  assert (H : forall a b, String.length (a +:+ b) = String.length a + String.length b)
    by (intros a b; induction a as [|x a IH]; cbn; [reflexivity | now rewrite IH]).
  rewrite H, length_zeros. lia.
Qed.

Lemma fmt_05d_inj (i j : nat) : fmt_05d i = fmt_05d j -> i = j.
Proof.
  intros H. apply (f_equal index_value) in H.
  rewrite !index_value_fmt_05d in H. now injection H.
Qed.

Lemma all_digits_append (a b : string) :
  all_digits (a +:+ b) = all_digits a && all_digits b.
Proof.
  induction a as [|c a IH]; [reflexivity|].
  cbn [String.append all_digits]. now rewrite IH, andb_assoc.
Qed.

Lemma all_digits_zeros (k : nat) : all_digits (zeros k) = true.
Proof. induction k as [|k IH]; [reflexivity | exact IH]. Qed.

Lemma all_digits_string_of_uint (d : Decimal.uint) :
  all_digits (NilEmpty.string_of_uint d) = true.
Proof. induction d; [reflexivity | exact IHd ..]. Qed.

Lemma all_digits_fmt_05d (idx : nat) : all_digits (fmt_05d idx) = true.
Proof.
  unfold fmt_05d, str_of_nat.
  now rewrite all_digits_append, all_digits_zeros, all_digits_string_of_uint.
Qed.

(** Two digit strings, each followed by an underscore, that start the same
    text are equal. *)
Lemma digits_prefix_unique (a b x y : string) :
  all_digits a = true -> all_digits b = true ->
  a +:+ String "_" x = b +:+ String "_" y -> a = b.
Proof.
  revert b. induction a as [|c a IH]; intros [|d b] Ha Hb H.
  - reflexivity.
  - cbn [String.append] in H. injection H as <- _.
    cbn [all_digits] in Hb. discriminate.
  - cbn [String.append] in H. injection H as -> _.
    cbn [all_digits] in Ha. discriminate.
  - cbn [String.append] in H. injection H as -> H.
    cbn [all_digits] in Ha, Hb.
    apply andb_true_iff in Ha as [_ Ha]. apply andb_true_iff in Hb as [_ Hb].
    f_equal. now apply IH.
Qed.

Lemma append_inj_l (a x y : string) : a +:+ x = a +:+ y -> x = y.
Proof.
  induction a as [|c a IH]; [trivial|].
  cbn [String.append]. intros H. injection H as H. now apply IH.
Qed.

(** The name of a segment determines its index. *)
Lemma segment_path_inj (i j : nat) (role role' ext ext' : string) :
  segment_path i role ext = segment_path j role' ext' -> i = j.
Proof.
  unfold segment_path, out_path. intros H.
  apply append_inj_l, (append_inj_l "/") in H.
  apply fmt_05d_inj.
  apply (digits_prefix_unique _ _ _ _ (all_digits_fmt_05d i) (all_digits_fmt_05d j) H).
Qed.

Lemma segment_paths_app (idx : nat) (r1 r2 : list string) :
  segment_paths idx (r1 ++ r2)
  = segment_paths idx r1 ++ segment_paths (idx + length r1) r2.
Proof.
  revert idx. induction r1 as [|r r1 IH]; intros idx.
  - cbn. now rewrite Nat.add_0_r.
  - cbn [app segment_paths length]. rewrite IH.
    now replace (S idx + length r1) with (idx + S (length r1)) by lia.
Qed.

Lemma segment_paths_lookup (idx : nat) (roles : list string) (k : nat) :
  segment_paths idx roles !! k
  = (fun role => segment_path (idx + k) role "wav") <$> roles !! k.
Proof.
  revert idx k. induction roles as [|r roles IH]; intros idx [|k]; cbn.
  - reflexivity.
  - reflexivity.
  - now rewrite Nat.add_0_r.
  - rewrite IH. now replace (S idx + k) with (idx + S k) by lia.
Qed.

Lemma segment_paths_NoDup (idx : nat) (roles : list string) :
  NoDup (segment_paths idx roles).
Proof.
  revert idx. induction roles as [|r roles IH]; intros idx; cbn [segment_paths].
  - constructor.
  - constructor; [|apply IH].
    intros Hin. apply list_elem_of_lookup in Hin as [k Hk].
    rewrite segment_paths_lookup in Hk.
    destruct (roles !! k) as [role|]; [|discriminate].
    change (Some (segment_path (S idx + k) role "wav")
            = Some (segment_path idx r "wav")) in Hk.
    apply (inj Some), segment_path_inj in Hk. lia.
Qed.

(** ** The loop over the rows *)

Section MainLoop.

Variable ext : oracle.

(** Whatever a row emits is appended to the parts, and named by the
    indices from the current one on. *)
Lemma process_row_shape (row : list string) (parts : list string) (idx : nat)
      (w : world) (parts' : list string) (idx' : nat) (w' : world) :
  process_row ext row (parts, idx) w = Return (parts', idx') w' ->
  exists roles,
    parts' = parts ++ segment_paths idx roles /\ idx' = idx + length roles.
Proof.
  destruct row as [|c0 [|c1 extra]].
  - intros H. injection H as <- <- _. exists []. cbn. now rewrite app_nil_r, Nat.add_0_r.
  - unfold process_row.
    destruct (Str.is_empty _);
      [intros H; injection H as <- <- _; exists []; cbn;
       now rewrite app_nil_r, Nat.add_0_r|].
    destruct (Str.startswith "speaker" _);
      [intros H; injection H as <- <- _; exists []; cbn;
       now rewrite app_nil_r, Nat.add_0_r|].
    destruct (_ && _);
      [|intros H; injection H as <- <- _; exists []; cbn;
        now rewrite app_nil_r, Nat.add_0_r].
    unfold bind. destruct (ffmpeg_on_path w) eqn:Hw.
    + rewrite make_silence_installed by exact Hw.
      intros H. injection H as <- <- _. exists ["silence"]. split; [reflexivity|].
      cbn. lia.
    + rewrite make_silence_missing by exact Hw. discriminate.
  - destruct (Str.is_empty (Str.strip c0)
              && Str.is_empty (Str.strip_quotes (Str.strip c1))) eqn:He.
    + rewrite (process_row_both_empty _ _ _ _ _ _ He).
      intros H. injection H as <- <- _. exists []. cbn.
      now rewrite app_nil_r, Nat.add_0_r.
    + rewrite (process_row_dialogue_cases _ _ _ _ _ _ _ He). cbv zeta.
      destruct (speech_answer ext w _); [|discriminate].
      destruct (ffmpeg_on_path w); [|discriminate].
      destruct (ffmpeg_answer ext _ (transcode_call _ _)); [|discriminate].
      intros H. injection H as <- <- _.
      exists [default "alloy" (VOICE_MAP !! Str.upper (Str.strip c0)); "silence"].
      split; [reflexivity|]. cbn. lia.
Qed.

Lemma main_loop_app (rows1 rows2 : list (list string))
      (st : list string * nat) (w : world) :
  main_loop ext (rows1 ++ rows2) st w
  = bind (main_loop ext rows1 st) (main_loop ext rows2) w.
Proof.
  revert st w. induction rows1 as [|row rows1 IH]; intros st w; [reflexivity|].
  cbn [app main_loop]. unfold bind.
  destruct (process_row ext row st w) as [st1 w1|]; [|reflexivity].
  rewrite IH. reflexivity.
Qed.

Lemma main_loop_shape (rows : list (list string)) :
  forall (parts : list string) (idx : nat) (w : world)
         (parts' : list string) (idx' : nat) (w' : world),
    main_loop ext rows (parts, idx) w = Return (parts', idx') w' ->
    exists roles,
      parts' = parts ++ segment_paths idx roles /\ idx' = idx + length roles.
Proof.
  induction rows as [|row rows IH]; intros parts idx w parts' idx' w' H.
  - injection H as <- <- _. exists []. cbn. now rewrite app_nil_r, Nat.add_0_r.
  - cbn [main_loop] in H. unfold bind in H.
    destruct (process_row ext row (parts, idx) w) as [[p1 i1] w1|] eqn:Hrow;
      [|discriminate].
    apply process_row_shape in Hrow as (roles1 & -> & ->).
    apply IH in H as (roles2 & -> & ->).
    exists (roles1 ++ roles2).
    rewrite segment_paths_app, length_app, <- app_assoc. split; [reflexivity | lia].
Qed.

(** C7. When the loop over the rows of a script completes, the parts it
    has accumulated are the parts it started with followed by the new
    segments, and the k-th new segment is named by the zero-padded index
    [idx0 + k], written in at least five decimal digits: the counter
    advances by exactly one per emitted segment, dialogue and silence alike,
    so the names are pairwise distinct and their indices strictly increase
    along the list. The order of the list is the
    order of the rows: for every way of cutting the script in two, the
    segments of the first part come first, and the second part continues
    from the state the first part left. *)
Theorem main_loop_segment_order (rows : list (list string))
        (parts0 : list string) (idx0 : nat) (w : world)
        (parts : list string) (idx : nat) (w' : world) :
  main_loop ext rows (parts0, idx0) w = Return (parts, idx) w' ->
  exists roles,
    parts = parts0 ++ segment_paths idx0 roles
    /\ idx = idx0 + length roles
    /\ (forall k p,
          segment_paths idx0 roles !! k = Some p ->
          exists role,
            roles !! k = Some role
            /\ p = OUT_DIR +:+ "/" +:+ fmt_05d (idx0 + k) +:+ "_" +:+ role +:+ ".wav")
    /\ (forall i, index_value (fmt_05d i) = Some i
                  /\ 5 <= String.length (fmt_05d i))
    /\ NoDup (segment_paths idx0 roles)
    /\ (forall rows1 rows2,
          rows = rows1 ++ rows2 ->
          exists new1 new2 w1,
            parts = parts0 ++ new1 ++ new2
            /\ main_loop ext rows1 (parts0, idx0) w
               = Return (parts0 ++ new1, idx0 + length new1) w1
            /\ main_loop ext rows2 (parts0 ++ new1, idx0 + length new1) w1
               = Return (parts, idx) w').
Proof.
  intros H. destruct (main_loop_shape _ _ _ _ _ _ _ H) as (roles & Hparts & Hidx).
  exists roles. split; [exact Hparts|]. split; [exact Hidx|].
  split; [|split; [intros i; split; [apply index_value_fmt_05d | apply length_fmt_05d]
                  |split; [apply segment_paths_NoDup|]]].
  - intros k p Hk. rewrite segment_paths_lookup in Hk.
    destruct (roles !! k) as [role|]; [|discriminate].
    exists role. split; [reflexivity|]. apply (inj Some) in Hk. now subst p.
  - intros rows1 rows2 ->. rewrite main_loop_app in H. unfold bind in H.
    destruct (main_loop ext rows1 (parts0, idx0) w) as [[p1 i1] w1|] eqn:H1;
      [|discriminate].
    destruct (main_loop_shape _ _ _ _ _ _ _ H1) as (roles1 & -> & ->).
    destruct (main_loop_shape _ _ _ _ _ _ _ H) as (roles2 & Hp2 & Hi2).
    exists (segment_paths idx0 roles1),
           (segment_paths (idx0 + length roles1) roles2), w1.
    assert (Hlen : forall i r, length (segment_paths i r) = length r)
      by (intros i r; revert i; induction r as [|x r IHr]; intros i;
          [reflexivity | cbn; now rewrite IHr]).
    rewrite Hlen. split; [now rewrite Hp2, <- app_assoc|].
    split; [reflexivity | exact H].
Qed.

(** The loop completes whenever nothing fatal can happen: the media tool is
    installed and the speech service and the transcoder answer. *)
Lemma process_row_returns (row : list string) (st : list string * nat) (w : world) :
  ffmpeg_on_path w = true -> speech_works ext -> transcode_works ext ->
  exists st' w',
    process_row ext row st w = Return st' w' /\ ffmpeg_on_path w' = true.
Proof.
  intros Hw Hspeech Htrans. destruct st as [parts idx].
  destruct row as [|c0 [|c1 extra]].
  - now exists (parts, idx), w.
  - unfold process_row.
    destruct (Str.is_empty _); [now exists (parts, idx), w|].
    destruct (Str.startswith "speaker" _); [now exists (parts, idx), w|].
    destruct (_ && _); [|now exists (parts, idx), w].
    unfold bind. rewrite make_silence_installed by exact Hw.
    eexists _, _. split; [reflexivity | exact Hw].
  - destruct (Str.is_empty (Str.strip c0)
              && Str.is_empty (Str.strip_quotes (Str.strip c1))) eqn:He.
    + rewrite (process_row_both_empty _ _ _ _ _ _ He). now exists (parts, idx), w.
    + rewrite (process_row_dialogue_cases _ _ _ _ _ _ _ He). cbv zeta.
      destruct (speech_answer ext w _) eqn:Ha; [|now apply Hspeech in Ha].
      rewrite Hw.
      destruct (ffmpeg_answer ext _ (transcode_call _ _)) eqn:Hb;
        [|now apply Htrans in Hb].
      eexists _, _. split; [reflexivity | exact Hw].
Qed.

(** X16. With the media tool installed and the speech service and the
    transcoder answering, the loop over the rows always completes, whatever
    the silence commands do: their failures are absorbed by the placeholder. *)
Lemma main_loop_returns (rows : list (list string)) :
  forall (st : list string * nat) (w : world),
    ffmpeg_on_path w = true -> speech_works ext -> transcode_works ext ->
    exists st' w', main_loop ext rows st w = Return st' w'.
Proof.
  induction rows as [|row rows IH]; intros st w Hw Hspeech Htrans.
  - now exists st, w.
  - destruct (process_row_returns row st w Hw Hspeech Htrans)
      as (st1 & w1 & Hrow & Hw1).
    destruct (IH st1 w1 Hw1 Hspeech Htrans) as (st' & w' & Hrest).
    exists st', w'. cbn [main_loop]. unfold bind. now rewrite Hrow.
Qed.

End MainLoop.

Lemma main_loop_segment_order_witness :
  exists roles,
    [ "output_build/00000_silence.wav"; "output_build/00001_verse.wav";
      "output_build/00002_silence.wav" ] = [] ++ segment_paths 0 roles
    /\ 3 = 0 + length roles
    /\ NoDup (segment_paths 0 roles).
Proof.
  destruct (main_loop_segment_order ok_oracle
              [["[PAUSE=1]"]; ["CHRIS"; "Hi"]] [] 0 fresh_world
              [ "output_build/00000_silence.wav"; "output_build/00001_verse.wav";
                "output_build/00002_silence.wav" ] 3
              (world_of (main_loop ok_oracle [["[PAUSE=1]"]; ["CHRIS"; "Hi"]]
                                   ([], 0) fresh_world))
              eq_refl)
    as (roles & Hparts & Hidx & _ & _ & Hnodup & _).
  exists roles. split; [exact Hparts|]. split; [exact Hidx | exact Hnodup].
Defined.

(** ** The scenarios of the specification *)

Example normalize_alias :
  normalize_text "  Say   A.L.I.E.x  to A.L.I.E. " = "Say Alliex to A.L.I.E.".
Proof. vm_compute. reflexivity. Qed.

Example scenario_pause_then_dialogue :
  log (world_of (main_loop ok_oracle [["[PAUSE=1]"]; ["CHRIS"; "Hi"]]
                           ([], 0) fresh_world))
  = [ FfmpegSilence (PyFloat.Finite false 1 0) Pcm24kMono
                    "output_build/00000_silence.wav";
      SpeechCreate "gpt-4o-mini-tts" "verse" "Hi" "output_build/00001_verse.mp3";
      FfmpegTranscode "output_build/00001_verse.mp3" "output_build/00001_verse.wav";
      FfmpegSilence PyFloat.lit_0_25 Pcm24kMono "output_build/00002_silence.wav" ].
Proof. vm_compute. reflexivity. Qed.

Example scenario_unknown_speaker :
  value_of (process_row ok_oracle ["ZEB"; "Test"] ([], 0) fresh_world)
  = Some (["output_build/00000_alloy.wav"; "output_build/00001_silence.wav"], 2).
Proof. vm_compute. reflexivity. Qed.

Example scenario_synthesis_fails :
  main (Oracle (fun _ _ => None) (fun _ _ => Some "wav-bytes"))
       [["[PAUSE=1]"]; ["CHRIS"; "Hi"]] "final.wav" fresh_world
  = Raise ServiceError
      (add_call (speech_call "Hi" "verse" 1)
         (after_silence ok_oracle (PyFloat.Finite false 1 0) 0 fresh_world)).
Proof. vm_compute. reflexivity. Qed.

Example scenario_hello_world :
  log (world_of (main ok_oracle [["NARRATOR"; "Hello world"]] "out/final.wav"
                      fresh_world))
  = [ SpeechCreate "gpt-4o-mini-tts" "alloy" "Hello world"
                   "output_build/00000_alloy.mp3";
      FfmpegTranscode "output_build/00000_alloy.mp3" "output_build/00000_alloy.wav";
      FfmpegSilence PyFloat.lit_0_25 Pcm24kMono "output_build/00001_silence.wav";
      FfmpegConcat "output_build/concat.txt" (Some (-16)%Z) FinalPcm24kMono
                   "out/final.wav" ].
Proof. vm_compute. reflexivity. Qed.

(** * Further properties of the pipeline *)

(** ** File names that never coincide *)

Lemma suffix_differs (x y s t : string) :
  String.length s = String.length t -> x +:+ s = y +:+ t -> s = t.
Proof.
  intros Hlen H.
  assert (Hxy : String.length x = String.length y).
  { apply (f_equal String.length) in H. rewrite !length_append in H. lia. }
  revert y H Hxy. induction x as [|a x IH]; intros [|b y] H Hxy;
    try discriminate.
  - exact H.
  - cbn [String.append] in H. injection H as _ H.
    apply (IH y H). cbn in Hxy. lia.
Qed.

Lemma segment_ext_differs (i j : nat) (r v : string) :
  segment_path i r "wav" <> segment_path j v "mp3".
Proof.
  unfold segment_path, out_path. intros H.
  apply append_inj_l, (append_inj_l "/") in H.
  rewrite <- !append_assoc in H.
  apply suffix_differs in H; [discriminate | reflexivity].
Qed.

Lemma fmt_05d_head (idx : nat) :
  exists d rest, fmt_05d idx = String d rest /\ Char.isdigit d = true.
Proof.
  pose proof (length_fmt_05d idx) as Hlen.
  pose proof (all_digits_fmt_05d idx) as Hd.
  destruct (fmt_05d idx) as [|d rest]; [cbn in Hlen; lia|].
  exists d, rest. split; [reflexivity|].
  cbn [all_digits] in Hd. now apply andb_true_iff in Hd as [Hd _].
Qed.

Lemma segment_path_not_list_file (idx : nat) (role ext : string) :
  segment_path idx role ext <> list_file_path.
Proof.
  unfold segment_path, list_file_path, out_path. intros H.
  apply append_inj_l, (append_inj_l "/") in H.
  destruct (fmt_05d_head idx) as (d & rest & Hf & Hd).
  rewrite Hf in H. cbn [String.append] in H. injection H as -> _.
  discriminate.
Qed.

(** ** What every step of the loop keeps *)

Lemma loop_keeps_refl (w : world) : loop_keeps w w.
Proof.
  constructor; try reflexivity; [tauto|].
  exists []. now rewrite app_nil_r.
Qed.

Lemma loop_keeps_trans (w1 w2 w3 : world) :
  loop_keeps w1 w2 -> loop_keeps w2 w3 -> loop_keeps w1 w3.
Proof.
  intros [Ht1 Hc1 Hl1 Hs1 (k1 & Hk1 & Hf1)] [Ht2 Hc2 Hl2 Hs2 (k2 & Hk2 & Hf2)].
  constructor; try congruence.
  - intros p Hp Hin. now apply Hs2, Hs1.
  - exists (k1 ++ k2). rewrite Hk2, Hk1, <- app_assoc. split; [reflexivity|].
    rewrite forallb_app. now rewrite Hf1, Hf2.
Qed.

Lemma loop_keeps_add_call (c : call) (w : world) :
  loop_call c = true -> loop_keeps w (add_call c w).
Proof.
  intros Hc. constructor; try reflexivity; [tauto|].
  exists [c]. split; [reflexivity|]. cbn. now rewrite Hc.
Qed.

Lemma loop_keeps_put_segment (idx : nat) (role ext data : string) (w : world) :
  loop_keeps w (put_file (segment_path idx role ext) data w).
Proof.
  constructor; try reflexivity.
  - cbn [put_file files]. apply lookup_insert_ne, segment_path_not_list_file.
  - intros p _ Hin. cbn [put_file files]. rewrite lookup_insert.
    case_decide; [eauto | exact Hin].
  - exists []. now rewrite app_nil_r.
Qed.

Lemma loop_keeps_del_mp3 (idx : nat) (role : string) (w : world) :
  loop_keeps w (del_file (segment_path idx role "mp3") w).
Proof.
  constructor; try reflexivity.
  - cbn [del_file files]. apply lookup_delete_ne, segment_path_not_list_file.
  - intros p (i & r & ->) Hin. cbn [del_file files].
    rewrite lookup_delete_ne; [exact Hin|].
    intros H. now apply (segment_ext_differs i idx r role).
  - exists []. now rewrite app_nil_r.
Qed.

Lemma loop_keeps_after_silence (ext : oracle) (seconds : PyFloat.t) (idx : nat)
      (w : world) :
  loop_keeps w (after_silence ext seconds idx w).
Proof.
  unfold after_silence.
  eapply loop_keeps_trans; [|apply loop_keeps_put_segment].
  now apply loop_keeps_add_call.
Qed.

(** ** What every step of the loop leaves alone on disk *)

Lemma loop_frame_refl (idx : nat) (w : world) : loop_frame idx w w.
Proof.
  constructor; [reflexivity|].
  intros p [x Hx] Hn. rewrite Hx in Hn. discriminate.
Qed.

(** A stretch that starts later leaves alone what an earlier start does. *)
Lemma loop_frame_from (i j : nat) (w w' : world) :
  i <= j -> loop_frame j w w' -> loop_frame i w w'.
Proof.
  intros Hij [Ho Hr]. constructor.
  - intros p Hp. apply Ho. intros k role ext Hk. apply Hp. lia.
  - intros p Hin Hn. destruct (Hr p Hin Hn) as (k & v & Hk & ->).
    exists k, v. split; [lia | reflexivity].
Qed.

Lemma loop_frame_trans (idx : nat) (w1 w2 w3 : world) :
  loop_frame idx w1 w2 -> loop_frame idx w2 w3 -> loop_frame idx w1 w3.
Proof.
  intros [Ho1 Hr1] [Ho2 Hr2]. constructor.
  - intros p Hp. now rewrite (Ho2 p Hp), (Ho1 p Hp).
  - intros p Hin Hn. destruct (files w2 !! p) as [x|] eqn:H2.
    + apply Hr2; [rewrite H2; eauto | exact Hn].
    + now apply Hr1.
Qed.

Lemma loop_frame_add_call (idx : nat) (c : call) (w : world) :
  loop_frame idx w (add_call c w).
Proof.
  constructor; cbn [add_call files]; [reflexivity|].
  intros p [x Hx] Hn. rewrite Hx in Hn. discriminate.
Qed.

Lemma loop_frame_put_segment (idx j : nat) (role ext data : string) (w : world) :
  idx <= j -> loop_frame idx w (put_file (segment_path j role ext) data w).
Proof.
  intros Hj. constructor; cbn [put_file files].
  - intros p Hp. apply lookup_insert_ne. intros H. now apply (Hp j role ext).
  - intros p Hin Hn. rewrite lookup_insert in Hn.
    case_decide; [discriminate|]. rewrite Hn in Hin. now destruct Hin.
Qed.

Lemma loop_frame_del_mp3 (idx j : nat) (voice : string) (w : world) :
  idx <= j -> loop_frame idx w (del_file (segment_path j voice "mp3") w).
Proof.
  intros Hj. constructor; cbn [del_file files].
  - intros p Hp. apply lookup_delete_ne. intros H. now apply (Hp j voice "mp3").
  - intros p Hin Hn. rewrite lookup_delete in Hn.
    case_decide as Hp; [subst p; eauto|]. rewrite Hn in Hin. now destruct Hin.
Qed.

Lemma loop_frame_after_silence (ext : oracle) (seconds : PyFloat.t)
      (idx j : nat) (w : world) :
  idx <= j -> loop_frame idx w (after_silence ext seconds j w).
Proof.
  intros Hj. unfold after_silence.
  eapply loop_frame_trans; [apply loop_frame_add_call|].
  now apply loop_frame_put_segment.
Qed.

Lemma segment_paths_indices (roles : list string) :
  forall idx,
    Forall (fun p => exists j role,
                j < idx + length roles /\ p = segment_path j role "wav")
           (segment_paths idx roles).
Proof.
  induction roles as [|r roles IH]; intros idx; cbn [segment_paths length].
  - apply List.Forall_nil.
  - apply List.Forall_cons.
    + exists idx, r. split; [lia | reflexivity].
    + eapply Forall_impl; [apply (IH (S idx))|].
      intros p (j & role & Hj & ->). exists j, role. split; [lia | reflexivity].
Qed.

(** ** The rows, case by case *)

Section RowCases.

Variable ext : oracle.

(** A single-cell row is skipped, or it is a pause: then the silence is
    generated, unless the media tool is missing. *)
Lemma process_row_single_cases (c : string) (parts : list string) (idx : nat)
      (w : world) :
  process_row ext [c] (parts, idx) w =
  if skipped [c] then Return (parts, idx) w
  else if ffmpeg_on_path w
       then Return (parts ++ [segment_path idx "silence" "wav"], S idx)
                   (after_silence ext (pause_seconds (Str.strip c)) idx w)
       else Raise (RuntimeError check_ffmpeg_message) w.
Proof.
  unfold process_row, skipped.
  destruct (Str.is_empty (Str.strip c)); [reflexivity|].
  destruct (Str.startswith "speaker" _); [reflexivity|].
  destruct (_ && _); [|reflexivity].
  cbn [orb negb]. unfold bind. destruct (ffmpeg_on_path w) eqn:Hw.
  - now rewrite make_silence_installed.
  - now rewrite make_silence_missing.
Qed.

Lemma process_row_skipped (row : list string) (st : list string * nat) (w : world) :
  skipped row = true -> process_row ext row st w = Return st w.
Proof.
  destruct st as [parts idx]. destruct row as [|c0 [|c1 extra]]; intros H.
  - reflexivity.
  - now rewrite process_row_single_cases, H.
  - now apply process_row_both_empty.
Qed.

Lemma process_row_keeps (row : list string) (st : list string * nat) (w : world) :
  loop_keeps w (world_of (process_row ext row st w)).
Proof.
  destruct st as [parts idx]. destruct row as [|c0 [|c1 extra]].
  - apply loop_keeps_refl.
  - rewrite process_row_single_cases.
    destruct (skipped [c0]); [apply loop_keeps_refl|].
    destruct (ffmpeg_on_path w);
      [apply loop_keeps_after_silence | apply loop_keeps_refl].
  - destruct (skipped (c0 :: c1 :: extra)) eqn:He.
    + rewrite (process_row_skipped _ _ _ He). apply loop_keeps_refl.
    + rewrite (process_row_dialogue_cases _ _ _ _ _ _ _ He). cbv zeta.
      destruct (speech_answer ext w _) as [audio|];
        [|now apply loop_keeps_add_call].
      assert (H1 : loop_keeps w
                (put_file (segment_path idx
                             (default "alloy" (VOICE_MAP !! Str.upper (Str.strip c0)))
                             "mp3") audio
                   (add_call (speech_call (Str.strip_quotes (Str.strip c1))
                                (default "alloy" (VOICE_MAP !! Str.upper (Str.strip c0)))
                                idx) w))).
      { eapply loop_keeps_trans; [|apply loop_keeps_put_segment].
        now apply loop_keeps_add_call. }
      destruct (ffmpeg_on_path w); [|exact H1].
      destruct (ffmpeg_answer ext _ (transcode_call _ _)) as [wav|]; cbn [world_of].
      * eapply loop_keeps_trans; [|apply loop_keeps_after_silence].
        eapply loop_keeps_trans; [|apply loop_keeps_del_mp3].
        eapply loop_keeps_trans; [|apply loop_keeps_put_segment].
        eapply loop_keeps_trans; [exact H1|]. now apply loop_keeps_add_call.
      * eapply loop_keeps_trans; [exact H1|]. now apply loop_keeps_add_call.
Qed.

Lemma main_loop_keeps (rows : list (list string)) :
  forall (st : list string * nat) (w : world),
    loop_keeps w (world_of (main_loop ext rows st w)).
Proof.
  induction rows as [|row rows IH]; intros st w; [apply loop_keeps_refl|].
  cbn [main_loop]. unfold bind.
  pose proof (process_row_keeps row st w) as Hrow.
  destruct (process_row ext row st w) as [st1 w1|e w1]; [|exact Hrow].
  exact (loop_keeps_trans _ _ _ Hrow (IH st1 w1)).
Qed.

(** The parts a row appends are finished segments that exist on disk. *)
Lemma process_row_new_parts (row : list string) (parts : list string) (idx : nat)
      (w : world) (parts' : list string) (idx' : nat) (w' : world) :
  process_row ext row (parts, idx) w = Return (parts', idx') w' ->
  exists new,
    parts' = parts ++ new
    /\ Forall (fun p => wav_segment p /\ is_Some (files w' !! p)) new.
Proof.
  assert (Hsil : forall seconds i w0,
             is_Some (files (after_silence ext seconds i w0)
                        !! segment_path i "silence" "wav")).
  { intros seconds i w0. unfold after_silence. cbn [put_file files].
    rewrite lookup_insert_eq. eauto. }
  destruct row as [|c0 [|c1 extra]].
  - intros H. injection H as <- _ <-. exists []. now rewrite app_nil_r.
  - rewrite process_row_single_cases.
    destruct (skipped [c0]);
      [intros H; injection H as <- _ <-; exists []; now rewrite app_nil_r|].
    destruct (ffmpeg_on_path w); [|discriminate].
    intros H. injection H as <- _ <-. eexists. split; [reflexivity|].
    apply List.Forall_cons; [|apply List.Forall_nil].
    split; [now eexists _, _ | apply Hsil].
  - destruct (skipped (c0 :: c1 :: extra)) eqn:He.
    + rewrite (process_row_skipped _ _ _ He).
      intros H. injection H as <- _ <-. exists []. now rewrite app_nil_r.
    + rewrite (process_row_dialogue_cases _ _ _ _ _ _ _ He). cbv zeta.
      destruct (speech_answer ext w _) as [audio|]; [|discriminate].
      destruct (ffmpeg_on_path w); [|discriminate].
      destruct (ffmpeg_answer ext _ (transcode_call _ _)) as [wav|];
        [|discriminate].
      intros H. injection H as <- _ <-. eexists. split; [reflexivity|].
      apply List.Forall_cons;
        [|apply List.Forall_cons; [|apply List.Forall_nil]];
        (split; [now eexists _, _|]); [|apply Hsil].
      apply (keeps_segments _ _ (loop_keeps_after_silence _ _ _ _));
        [now eexists _, _|].
      apply (keeps_segments _ _ (loop_keeps_del_mp3 _ _ _));
        [now eexists _, _|].
      cbn [put_file files]. rewrite lookup_insert_eq. eauto.
Qed.

Lemma process_row_frame (row : list string) (parts : list string) (idx : nat)
      (w : world) :
  loop_frame idx w (world_of (process_row ext row (parts, idx) w)).
Proof.
  destruct row as [|c0 [|c1 extra]].
  - apply loop_frame_refl.
  - rewrite process_row_single_cases.
    destruct (skipped [c0]); [apply loop_frame_refl|].
    destruct (ffmpeg_on_path w);
      [apply loop_frame_after_silence, le_n | apply loop_frame_refl].
  - destruct (skipped (c0 :: c1 :: extra)) eqn:He.
    + rewrite (process_row_skipped _ _ _ He). apply loop_frame_refl.
    + rewrite (process_row_dialogue_cases _ _ _ _ _ _ _ He). cbv zeta.
      destruct (speech_answer ext w _) as [audio|];
        [|apply loop_frame_add_call].
      assert (H1 : loop_frame idx w
                (put_file (segment_path idx
                             (default "alloy" (VOICE_MAP !! Str.upper (Str.strip c0)))
                             "mp3") audio
                   (add_call (speech_call (Str.strip_quotes (Str.strip c1))
                                (default "alloy" (VOICE_MAP !! Str.upper (Str.strip c0)))
                                idx) w))).
      { eapply loop_frame_trans;
          [apply loop_frame_add_call | apply loop_frame_put_segment, le_n]. }
      destruct (ffmpeg_on_path w); [|exact H1].
      destruct (ffmpeg_answer ext _ (transcode_call _ _)) as [wav|]; cbn [world_of].
      * eapply loop_frame_trans;
          [|apply (loop_frame_after_silence _ _ idx (S idx)); lia].
        eapply loop_frame_trans; [|apply loop_frame_del_mp3, le_n].
        eapply loop_frame_trans; [|apply loop_frame_put_segment, le_n].
        eapply loop_frame_trans; [exact H1 | apply loop_frame_add_call].
      * eapply loop_frame_trans; [exact H1 | apply loop_frame_add_call].
Qed.

Lemma main_loop_frame (rows : list (list string)) :
  forall (parts : list string) (idx : nat) (w : world),
    loop_frame idx w (world_of (main_loop ext rows (parts, idx) w)).
Proof.
  induction rows as [|row rows IH]; intros parts idx w; [apply loop_frame_refl|].
  cbn [main_loop]. unfold bind.
  pose proof (process_row_frame row parts idx w) as Hrow.
  destruct (process_row ext row (parts, idx) w) as [[p1 i1] w1|e w1] eqn:Hp;
    [|exact Hrow].
  apply process_row_shape in Hp as (roles & _ & ->).
  eapply loop_frame_trans; [exact Hrow|].
  eapply loop_frame_from; [|apply IH]. lia.
Qed.

End RowCases.

(** ** The run as a whole *)

Section RunProperties.

Variable ext : oracle.


(** The three ways the concatenation can end. *)
Lemma concat_files_cases (parts : list string) (out : string) (w : world) :
  concat_files ext parts out w =
  if ffmpeg_on_path w then
    match ffmpeg_answer ext (put_file list_file_path (manifest (cwd w) parts) w)
                        (concat_call out) with
    | Some data =>
        Return tt (put_file out data
                     (add_call (concat_call out)
                        (put_file list_file_path (manifest (cwd w) parts) w)))
    | None =>
        Raise CalledProcessError
              (add_call (concat_call out)
                 (put_file list_file_path (manifest (cwd w) parts) w))
    end
  else Raise (RuntimeError check_ffmpeg_message) w.
Proof.
  unfold concat_files, bind, _check_ffmpeg.
  destruct (ffmpeg_on_path w); [|reflexivity].
  unfold write_file, run_ffmpeg, bind, record_call. cbn [cwd put_file].
  unfold list_file_path.
  change (FfmpegConcat _ _ _ out) with (concat_call out).
  destruct (ffmpeg_answer ext _ (concat_call out)); reflexivity.
Qed.

(** X1. Rows that are skipped can be dropped from a script, or inserted
    anywhere in it, without any change to the run: the segments, their
    indices, the files and the calls stay the same. *)
Theorem main_loop_ignores_skipped_rows (rows : list (list string))
        (st : list string * nat) (w : world) :
  main_loop ext (List.filter (fun row => negb (skipped row)) rows) st w
  = main_loop ext rows st w.
Proof.
  revert st w. induction rows as [|row rows IH]; intros st w; [reflexivity|].
  cbn [List.filter]. destruct (skipped row) eqn:Hs; cbn [negb main_loop].
  - unfold bind. rewrite (process_row_skipped _ _ _ _ Hs). apply IH.
  - unfold bind. destruct (process_row ext row st w); [apply IH | reflexivity].
Qed.

(** X2. Every part the loop has appended exists on disk when the loop ends,
    and still does however the rows that follow end, normally or by an
    abort. When the parts the loop started with are numbered below its
    starting index, as they are in a run, which starts at index 0 without
    parts, every part is numbered below the final index and the rows that
    follow leave its file as it is, content included: they write to files
    numbered from the final index on only. Whatever the start, the only
    files the rows that follow remove are .mp3 files numbered from the
    final index on. *)
Theorem main_loop_parts_on_disk (rows : list (list string))
        (parts0 : list string) (idx0 : nat) (w : world)
        (parts : list string) (idx : nat) (w' : world) :
  Forall (fun p => wav_segment p /\ is_Some (files w !! p)) parts0 ->
  main_loop ext rows (parts0, idx0) w = Return (parts, idx) w' ->
  Forall (fun p => wav_segment p /\ is_Some (files w' !! p)) parts
  /\ (forall rest,
        Forall (fun p => is_Some (files (world_of (main_loop ext rest (parts, idx) w'))
                                    !! p)) parts)
  /\ (Forall (fun p => exists j role,
                  j < idx0 /\ p = segment_path j role "wav") parts0 ->
      Forall (fun p => exists j role,
                  j < idx /\ p = segment_path j role "wav") parts
      /\ forall rest,
           Forall (fun p => files (world_of (main_loop ext rest (parts, idx) w')) !! p
                            = files w' !! p) parts)
  /\ (forall rest p,
        is_Some (files w' !! p) ->
        files (world_of (main_loop ext rest (parts, idx) w')) !! p = None ->
        exists j voice, idx <= j /\ p = segment_path j voice "mp3").
Proof.
  intros H0 H.
  assert (Hon : Forall (fun p => wav_segment p /\ is_Some (files w' !! p)) parts).
  { revert parts0 idx0 w H0 H.
    induction rows as [|row rows IH]; intros parts0 idx0 w H0 H.
    - injection H as <- _ <-. exact H0.
    - cbn [main_loop] in H. unfold bind in H.
      pose proof (process_row_keeps ext row (parts0, idx0) w) as Hkeep.
      destruct (process_row ext row (parts0, idx0) w) as [[p1 i1] w1|] eqn:Hrow;
        [|discriminate].
      destruct (process_row_new_parts _ _ _ _ _ _ _ _ Hrow) as (new & -> & Hnew).
      apply (IH (parts0 ++ new) i1 w1); [|exact H].
      apply Forall_app. split; [|exact Hnew].
      eapply Forall_impl; [exact H0|].
      intros p [Hp Hin]. split; [exact Hp|].
      exact (keeps_segments _ _ Hkeep p Hp Hin). }
  split; [exact Hon|]. split; [|split].
  - intros rest. eapply Forall_impl; [exact Hon|].
    intros p [Hp Hin].
    exact (keeps_segments _ _ (main_loop_keeps ext rest (parts, idx) w') p Hp Hin).
  - intros Hbelow0.
    assert (Hbelow : Forall (fun p => exists j role,
                                 j < idx /\ p = segment_path j role "wav") parts).
    { destruct (main_loop_shape ext rows _ _ _ _ _ _ H) as (roles & -> & ->).
      apply Forall_app. split.
      - eapply Forall_impl; [exact Hbelow0|].
        intros p (j & role & Hj & ->). exists j, role. split; [lia | reflexivity].
      - apply segment_paths_indices. }
    split; [exact Hbelow|].
    intros rest. eapply Forall_impl; [exact Hbelow|].
    intros p (j & role & Hj & ->).
    apply (frame_others _ _ _ (main_loop_frame ext rest parts idx w')).
    intros k role' ext' Hk Heq. apply segment_path_inj in Heq. lia.
  - intros rest p.
    apply (frame_removed _ _ _ (main_loop_frame ext rest parts idx w')).
Qed.

(** X3. A run that aborts inside the loop stops there: the error reaches the
    caller unchanged, the concatenation is never invoked and the play-list
    is not written. *)
Theorem main_abort_skips_assembly (rows : list (list string)) (out : string)
        (w : world) (e : exn) (w1 : world) :
  main_loop ext rows ([], 0) w = Raise e w1 ->
  main ext rows out w = Raise e w1
  /\ files w1 !! list_file_path = files w !! list_file_path
  /\ exists calls, log w1 = log w ++ calls /\ forallb loop_call calls = true.
Proof.
  intros H. pose proof (main_loop_keeps ext rows ([], 0) w) as Hkeep.
  rewrite H in Hkeep. cbn [world_of] in Hkeep.
  split; [|split].
  - unfold main, bind. now rewrite H.
  - apply (keeps_list_file _ _ Hkeep).
  - apply (keeps_calls _ _ Hkeep).
Qed.


End RunProperties.

Lemma main_loop_parts_on_disk_witness :
  Forall (fun p => is_Some (files (world_of (main_loop failing_speech_oracle
                                        [["CHRIS"; "Hi"]]
                                        ([ "output_build/00000_silence.wav" ], 1)
                                        (world_of (main_loop failing_speech_oracle
                                                     [["[PAUSE=1]"]] ([], 0)
                                                     fresh_world))))
                             !! p))
         [ "output_build/00000_silence.wav" ]
  /\ Forall (fun p => files (world_of (main_loop ok_oracle
                                        [["CHRIS"; "Hi"]; ["[PAUSE=2]"]]
                                        ([ "output_build/00000_silence.wav" ], 1)
                                        (world_of (main_loop ok_oracle
                                                     [["[PAUSE=1]"]] ([], 0)
                                                     fresh_world))))
                      !! p
                      = files (world_of (main_loop ok_oracle [["[PAUSE=1]"]]
                                                   ([], 0) fresh_world)) !! p)
            [ "output_build/00000_silence.wav" ]
  /\ files (world_of (main_loop ok_oracle [["[PAUSE=1]"]] ([], 0) fresh_world))
     !! "output_build/00000_silence.wav" = Some "wav-bytes".
Proof.
  split; [|split; [|vm_compute; reflexivity]].
  - destruct (main_loop_parts_on_disk failing_speech_oracle [["[PAUSE=1]"]]
                [] 0 fresh_world [ "output_build/00000_silence.wav" ] 1 _
                (List.Forall_nil _) eq_refl) as (_ & Hrest & _).
    exact (Hrest [["CHRIS"; "Hi"]]).
  - destruct (main_loop_parts_on_disk ok_oracle [["[PAUSE=1]"]]
                [] 0 fresh_world [ "output_build/00000_silence.wav" ] 1 _
                (List.Forall_nil _) eq_refl) as (_ & _ & Hsame & _).
    destruct (Hsame (List.Forall_nil _)) as (_ & Hrest).
    exact (Hrest [["CHRIS"; "Hi"]; ["[PAUSE=2]"]]).
Defined.

Lemma main_abort_skips_assembly_witness :
  main failing_speech_oracle [["[PAUSE=1]"]; ["CHRIS"; "Hi"]] "final.wav" fresh_world
  = Raise ServiceError
      (world_of (main_loop failing_speech_oracle [["[PAUSE=1]"]; ["CHRIS"; "Hi"]]
                           ([], 0) fresh_world)).
Proof.
  apply (main_abort_skips_assembly failing_speech_oracle
           [["[PAUSE=1]"]; ["CHRIS"; "Hi"]] "final.wav" fresh_world
           ServiceError _ eq_refl).
Defined.


(** ** The steps taken one by one *)

Section StepProperties.

Variable ext : oracle.


(** X6. A row of one cell is never spoken, whatever the cell holds: the row
    is skipped, or it is a pause directive and yields one silence, or the
    run aborts because the media tool is missing. A line of dialogue typed
    without the delimiter is thus dropped without a word. *)
Theorem single_cell_row_never_synthesizes (c : string) (parts : list string)
        (idx : nat) (w : world) :
  (skipped [c] = true
   /\ process_row ext [c] (parts, idx) w = Return (parts, idx) w)
  \/ (skipped [c] = false /\ ffmpeg_on_path w = false
      /\ process_row ext [c] (parts, idx) w
         = Raise (RuntimeError check_ffmpeg_message) w)
  \/ (skipped [c] = false /\ ffmpeg_on_path w = true
      /\ exists w',
           process_row ext [c] (parts, idx) w
           = Return (parts ++ [segment_path idx "silence" "wav"], S idx) w'
           /\ log w' = log w ++ [FfmpegSilence (pause_seconds (Str.strip c))
                                               Pcm24kMono
                                               (segment_path idx "silence" "wav")]).
Proof.
  rewrite process_row_single_cases.
  destruct (skipped [c]); [now left|]. right.
  destruct (ffmpeg_on_path w); [right | now left].
  split; [reflexivity|]. split; [reflexivity|].
  eexists. split; reflexivity.
Qed.

(** X7. When make_silence returns, the media tool was installed, the path
    returned is the one of the segment and a file stands there, no other
    file was touched, and the log grew by the one silence command. *)
Theorem make_silence_frame (seconds : PyFloat.t) (idx : nat) (w : world)
        (path : string) (w' : world) :
  make_silence ext seconds idx w = Return path w' ->
  ffmpeg_on_path w = true
  /\ path = segment_path idx "silence" "wav"
  /\ is_Some (files w' !! path)
  /\ (forall p, p <> path -> files w' !! p = files w !! p)
  /\ log w' = log w ++ [FfmpegSilence seconds Pcm24kMono path].
Proof.
  destruct (ffmpeg_on_path w) eqn:Hw.
  - rewrite make_silence_installed by exact Hw.
    intros H. injection H as <- <-.
    split; [reflexivity|]. split; [reflexivity|].
    unfold after_silence. cbn [put_file add_call files log].
    split; [rewrite lookup_insert_eq; eauto|].
    split; [|reflexivity].
    intros p Hp. apply lookup_insert_ne. congruence.
  - rewrite make_silence_missing by exact Hw. discriminate.
Qed.

(** X8. When the speech service and the transcoder answer, synth_to_file
    returns the name of the wave file, which holds what the transcoder
    wrote; the intermediate file is gone, every other file is as before,
    and the log grew by the request and the transcoding, in this order. *)
Theorem synth_to_file_postcondition (text voice : string) (idx : nat)
        (w : world) (audio wav : string) :
  ffmpeg_on_path w = true ->
  speech_answer ext w (speech_call text voice idx) = Some audio ->
  ffmpeg_answer ext
    (put_file (segment_path idx voice "mp3") audio
              (add_call (speech_call text voice idx) w))
    (transcode_call voice idx) = Some wav ->
  exists w',
    synth_to_file ext text voice idx w = Return (segment_path idx voice "wav") w'
    /\ files w' !! segment_path idx voice "wav" = Some wav
    /\ files w' !! segment_path idx voice "mp3" = None
    /\ (forall p, p <> segment_path idx voice "wav" ->
                  p <> segment_path idx voice "mp3" ->
                  files w' !! p = files w !! p)
    /\ log w' = log w ++
         [ SpeechCreate MODEL voice (normalize_text text)
                        (segment_path idx voice "mp3");
           FfmpegTranscode (segment_path idx voice "mp3")
                           (segment_path idx voice "wav") ].
Proof.
  intros Hw Ha Hb. rewrite synth_to_file_cases, Ha. cbv zeta. rewrite Hw, Hb.
  eexists. split; [reflexivity|].
  cbn [del_file put_file add_call files log].
  split; [|split; [|split]].
  - rewrite lookup_delete_ne by (apply not_eq_sym, segment_ext_differs).
    apply lookup_insert_eq.
  - apply lookup_delete_eq.
  - intros p Hwav Hmp3.
    rewrite lookup_delete_ne by congruence.
    rewrite lookup_insert_ne by congruence.
    apply lookup_insert_ne. congruence.
  - unfold speech_call, transcode_call. now rewrite <- app_assoc.
Qed.

(** X9. The request to the speech service is made before the media tool is
    looked for. When the service has answered and the tool is missing, or
    the transcoding fails, synth_to_file raises, and the audio received is
    left on disk under the name of the intermediate file. *)
Theorem synth_to_file_failure_leaves_mp3 (text voice : string) (idx : nat)
        (w : world) (audio : string) :
  speech_answer ext w (speech_call text voice idx) = Some audio ->
  ffmpeg_on_path w = false
  \/ ffmpeg_answer ext
       (put_file (segment_path idx voice "mp3") audio
                 (add_call (speech_call text voice idx) w))
       (transcode_call voice idx) = None ->
  exists e w',
    synth_to_file ext text voice idx w = Raise e w'
    /\ (e = RuntimeError check_ffmpeg_message \/ e = CalledProcessError)
    /\ files w' !! segment_path idx voice "mp3" = Some audio
    /\ exists later, log w' = log w ++ speech_call text voice idx :: later.
Proof.
  intros Ha Hfail. rewrite synth_to_file_cases, Ha. cbv zeta.
  destruct (ffmpeg_on_path w) eqn:Hw.
  - destruct Hfail as [Hfail|Hfail]; [discriminate|]. rewrite Hfail.
    eexists _, _. split; [reflexivity|]. split; [now right|].
    cbn [put_file add_call files log]. split; [apply lookup_insert_eq|].
    eexists. now rewrite <- app_assoc.
  - eexists _, _. split; [reflexivity|]. split; [now left|].
    cbn [put_file add_call files log]. split; [apply lookup_insert_eq|].
    now exists [].
Qed.

Lemma process_row_dialogue_first_call (c0 c1 : string) (extra : list string)
      (parts : list string) (idx : nat) (w : world) :
  skipped (c0 :: c1 :: extra) = false ->
  exists later,
    log (world_of (process_row ext (c0 :: c1 :: extra) (parts, idx) w))
    = log w ++ speech_call (Str.strip_quotes (Str.strip c1))
                           (default "alloy" (VOICE_MAP !! Str.upper (Str.strip c0)))
                           idx :: later.
Proof.
  intros Hne. rewrite (process_row_dialogue_cases _ _ _ _ _ _ _ Hne). cbv zeta.
  destruct (speech_answer ext w _) as [audio|]; [|now exists []].
  destruct (ffmpeg_on_path w); [|now exists []].
  destruct (ffmpeg_answer ext _ (transcode_call _ _)) as [wav|];
    eexists; unfold after_silence;
    cbn [world_of log put_file del_file add_call];
    rewrite <- !app_assoc; reflexivity.
Qed.

(** X10. A row with a blank field is still a line of dialogue. With a blank
    speaker the text is spoken by the fallback voice; with a blank text the
    speech service is asked to speak the empty string. *)
Theorem half_empty_row_is_spoken (c0 c1 : string) (extra : list string)
        (parts : list string) (idx : nat) (w : world) :
  (Str.strip c0 = EmptyString ->
   Str.is_empty (Str.strip_quotes (Str.strip c1)) = false ->
   exists later,
     log (world_of (process_row ext (c0 :: c1 :: extra) (parts, idx) w))
     = log w ++ SpeechCreate MODEL "alloy"
                             (normalize_text (Str.strip_quotes (Str.strip c1)))
                             (segment_path idx "alloy" "mp3") :: later)
  /\ (Str.is_empty (Str.strip c0) = false ->
      Str.strip_quotes (Str.strip c1) = EmptyString ->
      exists voice later,
        resolve_voice (Str.strip c0) = inr voice
        /\ log (world_of (process_row ext (c0 :: c1 :: extra) (parts, idx) w))
           = log w ++ SpeechCreate MODEL voice EmptyString
                                   (segment_path idx voice "mp3") :: later).
Proof.
  split.
  - intros Hs Ht.
    destruct (process_row_dialogue_first_call c0 c1 extra parts idx w)
      as [later Hlog].
    + cbn [skipped]. now rewrite Hs, Ht.
    + exists later. rewrite Hlog, Hs. reflexivity.
  - intros Hs Ht.
    destruct (process_row_dialogue_first_call c0 c1 extra parts idx w)
      as [later Hlog].
    + cbn [skipped]. now rewrite Hs.
    + eexists _, later. split; [apply resolve_voice_eq|].
      rewrite Hlog, Ht. reflexivity.
Qed.

End StepProperties.


Lemma make_silence_frame_witness :
  log (world_of (make_silence failing_ffmpeg_oracle PyFloat.lit_0_25 3 fresh_world))
  = [FfmpegSilence PyFloat.lit_0_25 Pcm24kMono "output_build/00003_silence.wav"].
Proof.
  destruct (make_silence_frame failing_ffmpeg_oracle PyFloat.lit_0_25 3 fresh_world
              "output_build/00003_silence.wav"
              (world_of (make_silence failing_ffmpeg_oracle PyFloat.lit_0_25 3
                                      fresh_world))
              eq_refl) as (_ & _ & _ & _ & Hlog).
  exact Hlog.
Defined.

Lemma synth_to_file_postcondition_witness :
  exists w',
    synth_to_file ok_oracle "Hi" "verse" 1 fresh_world
    = Return "output_build/00001_verse.wav" w'
    /\ files w' !! "output_build/00001_verse.wav" = Some "wav-bytes"
    /\ files w' !! "output_build/00001_verse.mp3" = None.
Proof.
  destruct (synth_to_file_postcondition ok_oracle "Hi" "verse" 1 fresh_world
              "mp3-bytes" "wav-bytes" eq_refl eq_refl eq_refl)
    as (w' & Hret & Hwav & Hmp3 & _).
  exists w'. split; [exact Hret|]. split; [exact Hwav | exact Hmp3].
Defined.

Lemma synth_to_file_failure_leaves_mp3_witness :
  exists e w',
    synth_to_file ok_oracle "Hi" "verse" 1 no_ffmpeg_world = Raise e w'
    /\ files w' !! "output_build/00001_verse.mp3" = Some "mp3-bytes".
Proof.
  destruct (synth_to_file_failure_leaves_mp3 ok_oracle "Hi" "verse" 1
              no_ffmpeg_world "mp3-bytes" eq_refl (or_introl eq_refl))
    as (e & w' & Hraise & _ & Hfile & _).
  exists e, w'. split; [exact Hraise | exact Hfile].
Defined.

Lemma half_empty_row_is_spoken_witness :
  (exists later,
     log (world_of (process_row ok_oracle [" "; "Hello"] ([], 0) fresh_world))
     = SpeechCreate "gpt-4o-mini-tts" "alloy" "Hello" "output_build/00000_alloy.mp3"
       :: later)
  /\ (exists later,
        log (world_of (process_row ok_oracle ["CHRIS"; "  "] ([], 0) fresh_world))
        = SpeechCreate "gpt-4o-mini-tts" "verse" EmptyString
                       "output_build/00000_verse.mp3" :: later).
Proof.
  split.
  - destruct (half_empty_row_is_spoken ok_oracle " " "Hello" [] [] 0 fresh_world)
      as (Hblank & _).
    exact (Hblank eq_refl eq_refl).
  - destruct (half_empty_row_is_spoken ok_oracle "CHRIS" "  " [] [] 0 fresh_world)
      as (_ & Hblank).
    destruct (Hblank eq_refl eq_refl) as (voice & later & Hvoice & Hlog).
    vm_compute in Hvoice. injection Hvoice as <-.
    exists later. exact Hlog.
Defined.

(** ** More on the normalizer *)

Lemma sub_space_runs_all_space (s : string) :
  all_space s = true -> Re.sub_space_runs " " true s = EmptyString.
Proof.
  induction s as [|c s IH]; [reflexivity|].
  cbn [all_space Re.sub_space_runs]. intros H.
  apply andb_true_iff in H as [Hc Hs]. rewrite Hc. now apply IH.
Qed.

Lemma normalize_text_tidy (text : string) : tidy (normalize_text text) = true.
Proof.
  rewrite normalize_text_allie. apply allie_tidy, collapse_whitespace_tidy.
Qed.

(** X11. The text handed to the speech service is free of stray whitespace:
    trimming it or collapsing its whitespace again changes nothing, and a
    text of whitespace only is normalized to the empty string. *)
Theorem normalize_text_whitespace (text : string) :
  Str.strip (normalize_text text) = normalize_text text
  /\ Re.sub_space_runs " " false (normalize_text text) = normalize_text text
  /\ (all_space text = true -> normalize_text text = EmptyString).
Proof.
  pose proof (normalize_text_tidy text) as Ht. unfold tidy in Ht.
  split; [|split].
  - destruct (normalize_text text) as [|c s] eqn:Hn; [reflexivity|].
    cbn [Str.is_empty orb] in Ht. unfold Str.strip, Str.strip_by.
    rewrite (tidy_go_lstrip _ Ht). apply (tidy_go_rstrip_fixed true _ Ht).
  - destruct (normalize_text text) as [|c s] eqn:Hn; [reflexivity|].
    cbn [Str.is_empty orb] in Ht.
    apply (tidy_go_sub_space_runs true false _ Ht). discriminate.
  - intros Hall. rewrite normalize_text_allie.
    unfold collapse_whitespace, Str.strip, Str.strip_by.
    rewrite lstrip_sub_space_runs, (sub_space_runs_all_space _ Hall).
    cbn [Str.rstrip_by]. apply allie_nil.
Qed.

Lemma normalize_text_whitespace_witness :
  normalize_text (String (ascii_of_nat 9) (String " " (String (ascii_of_nat 10) EmptyString)))
  = EmptyString.
Proof.
  destruct (normalize_text_whitespace
              (String (ascii_of_nat 9) (String " " (String (ascii_of_nat 10) EmptyString))))
    as (_ & _ & Hempty).
  apply Hempty. reflexivity.
Defined.

Lemma length_sub_space_runs (in_run : bool) (s : string) :
  String.length (Re.sub_space_runs " " in_run s) <= String.length s.
Proof.
  revert in_run. induction s as [|c s IH]; intros in_run; [reflexivity|].
  cbn [Re.sub_space_runs]. destruct (Char.isspace c).
  - destruct in_run; cbn [String.append String.length];
      specialize (IH true); lia.
  - cbn [String.length]. specialize (IH false). lia.
Qed.

Lemma length_lstrip (p : ascii -> bool) (s : string) :
  String.length (Str.lstrip_by p s) <= String.length s.
Proof.
  induction s as [|c s IH]; [reflexivity|].
  cbn [Str.lstrip_by]. destruct (p c); cbn [String.length]; lia.
Qed.

Lemma length_rstrip (p : ascii -> bool) (s : string) :
  String.length (Str.rstrip_by p s) <= String.length s.
Proof.
  induction s as [|c s IH]; [reflexivity|].
  cbn [Str.rstrip_by]. destruct (Str.rstrip_by p s) as [|d r].
  - destruct (p c); cbn [String.length]; lia.
  - cbn [String.length] in *. lia.
Qed.

Lemma length_allie (n : nat) :
  forall (s : string), String.length s <= n ->
  forall prev, String.length (allie prev s) <= String.length s.
Proof.
  induction n as [|n IH]; intros s Hlen prev;
    (destruct s as [|c s]; [now rewrite allie_nil|]); cbn in Hlen; [lia|].
  rewrite allie_cons. destruct (alias_here prev (String c s)) eqn:E.
  - apply alias_here_starts in E as (r & Hs & _ & _).
    cbn in Hs. injection Hs as -> ->. cbn [Str.drop].
    cbn [String.append String.length] in *.
    specialize (IH r ltac:(lia) (Some "."%char)). lia.
  - cbn [String.length]. specialize (IH s ltac:(lia) (Some c)). lia.
Qed.

(** X12. Normalizing never makes a text longer: whitespace is only removed or
    collapsed, and the alias is shorter than what it replaces. *)
Theorem normalize_text_length (text : string) :
  String.length (normalize_text text) <= String.length text.
Proof.
  rewrite normalize_text_allie.
  pose proof (length_allie _ (collapse_whitespace text) (le_n _) None) as Ha.
  unfold collapse_whitespace, Str.strip, Str.strip_by in *.
  pose proof (length_rstrip Char.isspace
                (Str.lstrip_by Char.isspace (Re.sub_space_runs " " false text))).
  pose proof (length_lstrip Char.isspace (Re.sub_space_runs " " false text)).
  pose proof (length_sub_space_runs false text).
  lia.
Qed.

Lemma allie_verbatim (l : string) :
  no_capital_a l = true ->
  forall prev rest, allie prev (l +:+ rest) = l +:+ allie (last_opt l prev) rest.
Proof.
  induction l as [|a l IH]; intros Hl prev rest; [reflexivity|].
  cbn [no_capital_a] in Hl. apply andb_true_iff in Hl as [Ha Hl].
  apply negb_true_iff in Ha.
  cbn [String.append last_opt]. rewrite allie_cons, (alias_here_other _ _ _ Ha).
  f_equal. now apply IH.
Qed.

(** X13. The alias applies to an occurrence of the abbreviation exactly when a
    word character follows it and none precedes it. Followed by a space, by
    punctuation or by the end of the text, the abbreviation is left as it
    was typed. *)
Theorem alias_needs_a_following_word_character (prev : option ascii) (rest : string) :
  Re.sub_go (fst (hd ([], EmptyString) PRONUNCIATION_ALIASES))
            (snd (hd ([], EmptyString) PRONUNCIATION_ALIASES))
            prev 0 ("A.L.I.E." +:+ rest)
  = (if negb (Re.isword_opt prev) && Re.isword_opt (Re.head rest)
     then "Allie" else "A.L.I.E.")
    +:+ Re.sub_go (fst (hd ([], EmptyString) PRONUNCIATION_ALIASES))
                  (snd (hd ([], EmptyString) PRONUNCIATION_ALIASES))
                  (Some "."%char) 0 rest.
Proof.
  change (allie prev ("A.L.I.E." +:+ rest)
          = (if negb (Re.isword_opt prev) && Re.isword_opt (Re.head rest)
             then "Allie" else "A.L.I.E.")
            +:+ allie (Some "."%char) rest).
  cbn [String.append]. rewrite allie_cons.
  change (alias_here prev (String "A" (String "." (String "L" (String "."
            (String "I" (String "." (String "E" (String "." rest)))))))))
    with (negb (Re.isword_opt prev) && Re.isword_opt (Re.head rest)).
  destruct (negb (Re.isword_opt prev) && Re.isword_opt (Re.head rest));
    [reflexivity|].
  cbn [String.append]. f_equal.
Qed.

Lemma no_capital_a_sub_space_runs (in_run : bool) (s : string) :
  no_capital_a s = true -> no_capital_a (Re.sub_space_runs " " in_run s) = true.
Proof.
  revert in_run. induction s as [|c s IH]; intros in_run H; [reflexivity|].
  cbn [no_capital_a] in H. apply andb_true_iff in H as [Hc Hs].
  cbn [Re.sub_space_runs]. destruct (Char.isspace c).
  - destruct in_run; [now apply IH|].
    cbn [String.append no_capital_a]. now rewrite IH.
  - cbn [no_capital_a]. now rewrite Hc, IH.
Qed.

Lemma no_capital_a_lstrip (p : ascii -> bool) (s : string) :
  no_capital_a s = true -> no_capital_a (Str.lstrip_by p s) = true.
Proof.
  induction s as [|c s IH]; intros H; [reflexivity|].
  cbn [Str.lstrip_by]. destruct (p c); [|exact H].
  cbn [no_capital_a] in H. apply andb_true_iff in H as [_ Hs]. now apply IH.
Qed.

Lemma no_capital_a_rstrip (p : ascii -> bool) (s : string) :
  no_capital_a s = true -> no_capital_a (Str.rstrip_by p s) = true.
Proof.
  induction s as [|c s IH]; intros H; [reflexivity|].
  cbn [no_capital_a] in H. apply andb_true_iff in H as [Hc Hs].
  specialize (IH Hs). cbn [Str.rstrip_by].
  destruct (Str.rstrip_by p s) as [|d r].
  - destruct (p c); [reflexivity|]. cbn [no_capital_a]. now rewrite Hc.
  - cbn [no_capital_a] in *. now rewrite Hc, IH.
Qed.

(** X14. A text without the capital letter A is changed in its whitespace only:
    the alias step leaves it as the first step made it. *)
Theorem normalize_text_without_capital_a (text : string) :
  no_capital_a text = true ->
  normalize_text text = collapse_whitespace text
  /\ no_capital_a (normalize_text text) = true.
Proof.
  intros H.
  assert (Hc : no_capital_a (collapse_whitespace text) = true).
  { unfold collapse_whitespace, Str.strip, Str.strip_by.
    now apply no_capital_a_rstrip, no_capital_a_lstrip, no_capital_a_sub_space_runs. }
  assert (He : normalize_text text = collapse_whitespace text).
  { rewrite normalize_text_allie.
    rewrite <- (append_empty_r (collapse_whitespace text)) at 1.
    rewrite (allie_verbatim _ Hc), allie_nil. apply append_empty_r. }
  split; [exact He | now rewrite He].
Qed.

Lemma normalize_text_without_capital_a_witness :
  normalize_text "  a.l.i.e.x   said  hi " = collapse_whitespace "  a.l.i.e.x   said  hi ".
Proof.
  apply (normalize_text_without_capital_a "  a.l.i.e.x   said  hi "). reflexivity.
Defined.

(** ** What a run can raise *)

Section Errors.

Variable ext : oracle.

Lemma process_row_raises (row : list string) (st : list string * nat) (w : world)
      (e : exn) (w' : world) :
  process_row ext row st w = Raise e w' ->
  e = ServiceError \/ e = CalledProcessError
  \/ (e = RuntimeError check_ffmpeg_message /\ ffmpeg_on_path w = false).
Proof.
  destruct st as [parts idx]. destruct row as [|c0 [|c1 extra]].
  - discriminate.
  - rewrite process_row_single_cases.
    destruct (skipped [c0]); [discriminate|].
    destruct (ffmpeg_on_path w); [discriminate|].
    intros H. injection H as <- _. right. right. now split.
  - destruct (skipped (c0 :: c1 :: extra)) eqn:He.
    + now rewrite (process_row_skipped _ _ _ _ He).
    + rewrite (process_row_dialogue_cases _ _ _ _ _ _ _ He). cbv zeta.
      destruct (speech_answer ext w _);
        [|intros H; injection H as <- _; now left].
      destruct (ffmpeg_on_path w);
        [|intros H; injection H as <- _; right; right; now split].
      destruct (ffmpeg_answer ext _ (transcode_call _ _)); [discriminate|].
      intros H. injection H as <- _. right. now left.
Qed.

(** X15. Whatever the script holds, a run raises nothing but the failure of the
    speech service, the failure of a transcoding or of the concatenation,
    or the error of the missing media tool, this one only when the tool is
    indeed missing. A malformed pause, an unknown speaker or a row of an
    unexpected shape never raises. *)
Theorem main_raises_only_external_errors (rows : list (list string))
        (out : string) (w : world) (e : exn) (w' : world) :
  main ext rows out w = Raise e w' ->
  e = ServiceError \/ e = CalledProcessError
  \/ (e = RuntimeError check_ffmpeg_message /\ ffmpeg_on_path w = false).
Proof.
  assert (Hloop : forall rows st w e w',
             main_loop ext rows st w = Raise e w' ->
             e = ServiceError \/ e = CalledProcessError
             \/ (e = RuntimeError check_ffmpeg_message /\ ffmpeg_on_path w = false)).
  { clear. intros rows. induction rows as [|row rows IH]; intros st w e w' H;
      [discriminate|].
    cbn [main_loop] in H. unfold bind in H.
    pose proof (process_row_keeps ext row st w) as Hkeep.
    destruct (process_row ext row st w) as [st1 w1|e1 w1] eqn:Hrow.
    - cbn [world_of] in Hkeep. apply IH in H.
      rewrite (keeps_tool _ _ Hkeep) in H. exact H.
    - injection H as <- _. exact (process_row_raises _ _ _ _ _ Hrow). }
  unfold main, bind.
  pose proof (main_loop_keeps ext rows ([], 0) w) as Hkeep.
  destruct (main_loop ext rows ([], 0) w) as [[parts idx] w1|e1 w1] eqn:Hl.
  - cbn [fst world_of] in *. rewrite concat_files_cases, (keeps_tool _ _ Hkeep).
    destruct (ffmpeg_on_path w);
      [|intros H; injection H as <- _; right; right; now split].
    destruct (ffmpeg_answer ext _ (concat_call out)); [discriminate|].
    intros H. injection H as <- _. right. now left.
  - intros H. injection H as <- _. exact (Hloop _ _ _ _ _ Hl).
Qed.

End Errors.

Lemma main_raises_only_external_errors_witness :
  ServiceError = ServiceError \/ ServiceError = CalledProcessError
  \/ (ServiceError = RuntimeError check_ffmpeg_message
      /\ ffmpeg_on_path fresh_world = false).
Proof.
  apply (main_raises_only_external_errors failing_speech_oracle
           [["[PAUSE=x]"]; ["Nobody"; "Hi"; "extra"]] "final.wav" fresh_world
           ServiceError
           (world_of (main failing_speech_oracle
                           [["[PAUSE=x]"]; ["Nobody"; "Hi"; "extra"]]
                           "final.wav" fresh_world))).
  reflexivity.
Defined.

Lemma main_loop_returns_witness :
  exists st' w',
    main_loop failing_silence_oracle [["[PAUSE=1]"]; ["CHRIS"; "Hi"]] ([], 0)
              fresh_world
    = Return st' w'.
Proof.
  apply (main_loop_returns failing_silence_oracle [["[PAUSE=1]"]; ["CHRIS"; "Hi"]]
           ([], 0) fresh_world eq_refl).
  - intros w c. discriminate.
  - intros w src dst. discriminate.
Defined.

(** * Properties of the audition script *)

Lemma index_value_fmt_02d (idx : nat) : index_value (Demo.fmt_02d idx) = Some idx.
Proof.
  unfold Demo.fmt_02d. rewrite index_value_zeros.
  unfold index_value, str_of_nat. rewrite NilEmpty.usu. cbn [option_map].
  now rewrite DecimalNat.Unsigned.of_to.
Qed.

Lemma all_digits_fmt_02d (idx : nat) : all_digits (Demo.fmt_02d idx) = true.
Proof.
  unfold Demo.fmt_02d, str_of_nat.
  now rewrite all_digits_append, all_digits_zeros, all_digits_string_of_uint.
Qed.

Lemma fmt_02d_head (idx : nat) :
  exists d rest, Demo.fmt_02d idx = String d rest /\ Char.isdigit d = true.
Proof.
  pose proof (all_digits_fmt_02d idx) as Hd.
  assert (Hlen : 2 <= String.length (Demo.fmt_02d idx))
    by (unfold Demo.fmt_02d; rewrite length_append, length_zeros; lia).
  destruct (Demo.fmt_02d idx) as [|d rest]; [cbn in Hlen; lia|].
  exists d, rest. split; [reflexivity|].
  cbn [all_digits] in Hd. now apply andb_true_iff in Hd as [Hd _].
Qed.

Lemma sample_path_inj (i j : nat) (v v' : string) :
  Demo.sample_path i v = Demo.sample_path j v' -> i = j.
Proof.
  unfold Demo.sample_path. intros H.
  apply append_inj_l, (append_inj_l "/") in H.
  apply (digits_prefix_unique _ _ _ _ (all_digits_fmt_02d i) (all_digits_fmt_02d j))
    in H.
  apply (f_equal index_value) in H. rewrite !index_value_fmt_02d in H.
  now injection H.
Qed.

(** A sample is neither the play-list nor the final file. *)
Lemma sample_path_fresh (idx : nat) (voice : string) :
  Demo.sample_path idx voice <> Demo.concat_file
  /\ Demo.sample_path idx voice <> Demo.final_path.
Proof.
  destruct (fmt_02d_head idx) as (d & rest & Hf & Hd).
  unfold Demo.sample_path, Demo.concat_file, Demo.final_path.
  split; intros H; apply append_inj_l, (append_inj_l "/") in H;
    rewrite Hf in H; cbn [String.append] in H; injection H as -> _; discriminate.
Qed.

Lemma sample_paths_lookup (idx : nat) (voices : list string) (k : nat) :
  Demo.sample_paths idx voices !! k
  = Demo.sample_path (idx + k) <$> voices !! k.
Proof.
  revert idx k. induction voices as [|v voices IH]; intros idx [|k]; cbn.
  - reflexivity.
  - reflexivity.
  - now rewrite Nat.add_0_r.
  - rewrite IH. now replace (S idx + k) with (idx + S k) by lia.
Qed.

Lemma sample_paths_NoDup (idx : nat) (voices : list string) :
  NoDup (Demo.sample_paths idx voices).
Proof.
  revert idx. induction voices as [|v voices IH]; intros idx; cbn [Demo.sample_paths].
  - constructor.
  - constructor; [|apply IH].
    intros Hin. apply list_elem_of_lookup in Hin as [k Hk].
    rewrite sample_paths_lookup in Hk.
    destruct (voices !! k) as [v'|]; [|discriminate].
    apply (inj Some), sample_path_inj in Hk. lia.
Qed.

Section DemoProperties.

Import Demo.

Variable ext : demo_oracle.

(** What the loop over the voices keeps, however it ends. *)
Lemma samples_keep (voices : list string) :
  forall (idx : nat) (parts : list string) (w : demo_world),
    let w' := demo_world_of (samples ext voices idx parts w) in
    demo_ffmpeg_on_path w' = demo_ffmpeg_on_path w
    /\ demo_cwd w' = demo_cwd w
    /\ demo_files w' !! concat_file = demo_files w !! concat_file
    /\ demo_files w' !! final_path = demo_files w !! final_path
    /\ (forall p, is_Some (demo_files w !! p) -> is_Some (demo_files w' !! p)).
Proof.
  induction voices as [|v voices IH]; intros idx parts w; cbn [samples].
  - cbn. tauto.
  - unfold sample. destruct (demo_speech_answer ext w _) as [data|].
    + specialize (IH (S idx) (parts ++ [sample_path idx v])
                     (demo_put_file (sample_path idx v) data
                        (demo_add_call (DemoSpeech MODEL v (audition_line v)
                                                   (sample_path idx v)) w))).
      cbv zeta in IH. destruct IH as (Ht & Hc & Hl & Hf & Hk).
      destruct (sample_path_fresh idx v) as [Hne1 Hne2].
      cbv zeta. rewrite Ht, Hc, Hl, Hf. cbn [demo_put_file demo_add_call
        demo_ffmpeg_on_path demo_cwd demo_files].
      rewrite !lookup_insert_ne by assumption.
      repeat split; try reflexivity.
      intros p Hp. apply Hk. cbn [demo_put_file demo_add_call demo_files].
      rewrite lookup_insert. case_decide; [eauto | exact Hp].
    + cbn. tauto.
Qed.

Lemma samples_in_voice_order_aux (voices : list string) :
  forall (idx : nat) (parts : list string) (w : demo_world)
         (parts' : list string) (w' : demo_world),
    samples ext voices idx parts w = DemoReturn parts' w' ->
    parts' = parts ++ sample_paths idx voices
    /\ demo_log w' = demo_log w ++ sample_requests idx voices.
Proof.
  induction voices as [|v voices IH]; intros idx parts w parts' w' H.
  - injection H as <- <-. cbn. now rewrite !app_nil_r.
  - cbn [samples] in H. unfold sample in H.
    destruct (demo_speech_answer ext w _) as [data|]; [|discriminate].
    apply IH in H as (-> & ->).
    cbn [sample_paths sample_requests demo_add_call demo_put_file demo_log].
    now rewrite <- !app_assoc.
Qed.

(** X17. When every request is answered, the loop yields one sample per voice,
    in the order of the voices: the k-th sample is named by the index k in
    two digits and by its voice, the names are pairwise distinct, every
    sample is on disk, and the service was asked once per voice, in order,
    for the audition line of that voice. *)
Theorem samples_in_voice_order (voices : list string) (idx : nat)
        (parts : list string) (w : demo_world)
        (parts' : list string) (w' : demo_world) :
  samples ext voices idx parts w = DemoReturn parts' w' ->
  parts' = parts ++ sample_paths idx voices
  /\ (forall k p, sample_paths idx voices !! k = Some p ->
        exists voice, voices !! k = Some voice
                      /\ p = OUT_DIR +:+ "/" +:+ fmt_02d (idx + k) +:+ "_"
                             +:+ voice +:+ ".wav")
  /\ NoDup (sample_paths idx voices)
  /\ Forall (fun p => is_Some (demo_files w' !! p)) (sample_paths idx voices)
  /\ demo_log w' = demo_log w ++ sample_requests idx voices.
Proof.
  intros H.
  assert (Hmain : parts' = parts ++ sample_paths idx voices
                  /\ Forall (fun p => is_Some (demo_files w' !! p))
                            (sample_paths idx voices)
                  /\ demo_log w' = demo_log w ++ sample_requests idx voices).
  { revert idx parts w H.
    induction voices as [|v voices IH]; intros idx parts w H.
    - injection H as <- <-. cbn. rewrite !app_nil_r. repeat split. constructor.
    - cbn [samples] in H. unfold sample in H.
      destruct (demo_speech_answer ext w _) as [data|]; [|discriminate].
      pose proof (samples_keep voices (S idx) (parts ++ [sample_path idx v])
                    (demo_put_file (sample_path idx v) data
                       (demo_add_call (DemoSpeech MODEL v (audition_line v)
                                                  (sample_path idx v)) w))) as Hk.
      cbv zeta in Hk. rewrite H in Hk. cbn [demo_world_of] in Hk.
      destruct Hk as (_ & _ & _ & _ & Hk).
      apply IH in H as (-> & Hfiles & ->).
      cbn [sample_paths sample_requests demo_add_call demo_put_file demo_log].
      rewrite <- !app_assoc. repeat split.
      constructor; [|exact Hfiles].
      apply Hk. cbn [demo_put_file demo_files]. rewrite lookup_insert_eq. eauto. }
  destruct Hmain as (Hp & Hf & Hl).
  split; [exact Hp|]. split; [|split; [apply sample_paths_NoDup|split; assumption]].
  intros k p Hk. rewrite sample_paths_lookup in Hk.
  destruct (voices !! k) as [voice|]; [|discriminate].
  exists voice. split; [reflexivity|]. apply (inj Some) in Hk. now subst p.
Qed.

End DemoProperties.

Section DemoRun.

Import Demo.

Variable ext : demo_oracle.

Lemma samples_raise (voices : list string) :
  forall (idx : nat) (parts : list string) (w : demo_world)
         (e : demo_exn) (w' : demo_world),
    samples ext voices idx parts w = DemoRaise e w' ->
    e = DemoServiceError
    /\ exists k voice,
         voices !! k = Some voice
         /\ demo_log w' = demo_log w ++ sample_requests idx (take (S k) voices)
         /\ Forall (fun p => is_Some (demo_files w' !! p))
                   (sample_paths idx (take k voices)).
Proof.
  induction voices as [|v voices IH]; intros idx parts w e w' H; [discriminate|].
  cbn [samples] in H. unfold sample in H.
  destruct (demo_speech_answer ext w _) as [data|].
  - pose proof (samples_keep ext voices (S idx) (parts ++ [sample_path idx v])
                  (demo_put_file (sample_path idx v) data
                     (demo_add_call (DemoSpeech MODEL v (audition_line v)
                                                (sample_path idx v)) w))) as Hk.
    cbv zeta in Hk. rewrite H in Hk. cbn [demo_world_of] in Hk.
    destruct Hk as (_ & _ & _ & _ & Hk).
    apply IH in H as (-> & k & voice & Hv & Hlog & Hfiles).
    split; [reflexivity|]. exists (S k), voice. split; [exact Hv|].
    cbn [take sample_requests sample_paths]. split.
    + rewrite Hlog. cbn [demo_put_file demo_add_call demo_log].
      now rewrite <- app_assoc.
    + constructor; [|exact Hfiles].
      apply Hk. cbn [demo_put_file demo_files]. rewrite lookup_insert_eq. eauto.
  - injection H as <- <-. split; [reflexivity|].
    exists 0, v. split; [reflexivity|]. split; [reflexivity | constructor].
Qed.

(** X18. The script can fail in two ways only. A request that the service
    refuses stops it at once: the requests made are those of the voices up
    to the refused one, the samples of the voices before it are on disk, the
    play-list is not written and the media tool is not run. A media tool
    that is missing is noticed only after every voice was requested and the
    play-list was written. *)
Theorem run_stops_at_first_refusal (voices : list string) (w : demo_world)
        (e : demo_exn) (w' : demo_world) :
  run ext voices w = DemoRaise e w' ->
  (e = DemoServiceError
   /\ demo_files w' !! concat_file = demo_files w !! concat_file
   /\ exists k voice,
        voices !! k = Some voice
        /\ demo_log w' = demo_log w ++ sample_requests 0 (take (S k) voices)
        /\ Forall (fun p => is_Some (demo_files w' !! p))
                  (sample_paths 0 (take k voices)))
  \/ (e = DemoFileNotFoundError
      /\ demo_ffmpeg_on_path w = false
      /\ demo_log w' = demo_log w ++ sample_requests 0 voices
      /\ demo_files w' !! concat_file
         = Some (manifest (demo_cwd w) (sample_paths 0 voices))).
Proof.
  unfold run. intros H.
  pose proof (samples_keep ext voices 0 [] w) as Hkeep. cbv zeta in Hkeep.
  destruct (samples ext voices 0 [] w) as [parts w1|e1 w1] eqn:Hs.
  - right. cbn [demo_world_of] in Hkeep. destruct Hkeep as (Ht & Hc & _).
    destruct (samples_in_voice_order_aux ext voices 0 [] w parts w1 Hs) as (-> & Hlog).
    unfold stitch in H. cbn [demo_put_file demo_ffmpeg_on_path] in H.
    rewrite Ht, Hc in H. destruct (demo_ffmpeg_on_path w); [|].
    + destruct (demo_ffmpeg_answer ext _ _); discriminate.
    + injection H as <- <-. split; [reflexivity|]. split; [reflexivity|].
      cbn [demo_put_file demo_log demo_files]. split; [exact Hlog|].
      apply lookup_insert_eq.
  - left. injection H as <- <-. cbn [demo_world_of] in Hkeep.
    destruct Hkeep as (_ & _ & Hl & _).
    destruct (samples_raise _ _ _ _ _ _ Hs) as (-> & Hrest).
    split; [reflexivity|]. split; [exact Hl | exact Hrest].
Qed.

(** X19. The exit status of the media tool is not looked at. When the service
    answers every request and the tool is installed, the script ends
    normally whatever the tool does: every voice was requested, then the
    tool was run once on the play-list of the samples; and when the tool
    failed, the final file is not there although the script reports
    success. *)
Theorem run_ignores_exit_status (voices : list string) (w : demo_world) :
  (forall w0 c, demo_speech_answer ext w0 c <> None) ->
  demo_ffmpeg_on_path w = true ->
  exists w',
    run ext voices w = DemoReturn tt w'
    /\ demo_log w' = demo_log w ++ sample_requests 0 voices
                     ++ [DemoConcatCopy concat_file final_path]
    /\ ((forall w0 c, demo_ffmpeg_answer ext w0 c = None) ->
        demo_files w' !! final_path = demo_files w !! final_path).
Proof.
  intros Hspeech Htool.
  assert (Hret : forall voices idx parts w0,
             exists parts' w1, samples ext voices idx parts w0 = DemoReturn parts' w1).
  { clear - Hspeech. intros voices. induction voices as [|v voices IH];
      intros idx parts w0; [now eexists _, _|].
    cbn [samples]. unfold sample.
    destruct (demo_speech_answer ext w0 _) eqn:Ha; [apply IH|].
    now apply Hspeech in Ha. }
  destruct (Hret voices 0 [] w) as (parts & w1 & Hs).
  pose proof (samples_keep ext voices 0 [] w) as Hkeep. cbv zeta in Hkeep.
  rewrite Hs in Hkeep. cbn [demo_world_of] in Hkeep.
  destruct Hkeep as (Ht & Hc & _ & Hfinal & _).
  destruct (samples_in_voice_order_aux ext voices 0 [] w parts w1 Hs) as (-> & Hlog).
  unfold run. rewrite Hs. unfold stitch.
  cbn [demo_put_file demo_ffmpeg_on_path]. rewrite Ht, Htool.
  destruct (demo_ffmpeg_answer ext _ _) as [data|] eqn:Hf.
  - eexists. split; [reflexivity|].
    cbn [demo_put_file demo_add_call demo_log demo_files]. rewrite Hlog.
    split; [now rewrite <- app_assoc|].
    intros Hnone. now rewrite Hnone in Hf.
  - eexists. split; [reflexivity|].
    cbn [demo_put_file demo_add_call demo_log demo_files]. rewrite Hlog.
    split; [now rewrite <- app_assoc|].
    intros _. rewrite lookup_insert_ne; [exact Hfinal|]. discriminate.
Qed.

End DemoRun.

Lemma samples_in_voice_order_witness :
  NoDup (Demo.sample_paths 0 Demo.VOICES)
  /\ Demo.demo_log (Demo.demo_world_of
                      (Demo.samples Demo.demo_ok_oracle Demo.VOICES 0 []
                                    Demo.demo_fresh_world))
     = Demo.sample_requests 0 Demo.VOICES.
Proof.
  destruct (samples_in_voice_order Demo.demo_ok_oracle Demo.VOICES 0 []
              Demo.demo_fresh_world (Demo.sample_paths 0 Demo.VOICES)
              (Demo.demo_world_of
                 (Demo.samples Demo.demo_ok_oracle Demo.VOICES 0 []
                               Demo.demo_fresh_world))
              eq_refl) as (_ & _ & Hnodup & _ & Hlog).
  split; [exact Hnodup | exact Hlog].
Defined.

Lemma run_stops_at_first_refusal_witness :
  exists k voice,
    Demo.VOICES !! k = Some voice
    /\ Demo.demo_log (Demo.demo_world_of
                        (Demo.script Demo.demo_no_onyx_oracle Demo.demo_fresh_world))
       = Demo.sample_requests 0 (take (S k) Demo.VOICES).
Proof.
  destruct (run_stops_at_first_refusal Demo.demo_no_onyx_oracle Demo.VOICES
              Demo.demo_fresh_world Demo.DemoServiceError
              (Demo.demo_world_of
                 (Demo.script Demo.demo_no_onyx_oracle Demo.demo_fresh_world))
              eq_refl)
    as [(_ & _ & k & voice & Hv & Hlog & _) | (Hcontra & _)];
    [|discriminate].
  exists k, voice. split; [exact Hv | exact Hlog].
Defined.

Lemma run_ignores_exit_status_witness :
  exists w',
    Demo.script Demo.demo_bad_ffmpeg_oracle Demo.demo_fresh_world
    = Demo.DemoReturn tt w'
    /\ Demo.demo_files w' !! Demo.final_path = None.
Proof.
  destruct (run_ignores_exit_status Demo.demo_bad_ffmpeg_oracle Demo.VOICES
              Demo.demo_fresh_world)
    as (w' & Hret & _ & Hfinal).
  - intros w0 c. discriminate.
  - reflexivity.
  - exists w'. split; [exact Hret|]. apply Hfinal. reflexivity.
Defined.
